(** * sylr.dev/fix: the [marketdata request] command

    A shallow embedding of [package marketdatarequest]: the option
    validation ([Validate]), the message builder ([buildMessage]) and the
    session orchestration ([Execute]), followed by the properties
    established about them.

    Conventions.
    - Go strings are modelled as [string]; [strings.ToUpper] is modelled on
      the ASCII range (bytes outside [a-z] are left unchanged).
    - A Go [map] is a [gmap]; indexing a map with an absent key yields the
      zero value of the element type.
    - The package-level option variables ([optionTypes], ...) form the
      record [Options], which is threaded explicitly through [Validate].
    - A Go [(value, error)] result is a [result]; a lone [error] is an
      [option error] with [None] for [nil].
    - Everything the command obtains from its collaborators (configuration,
      FIX engine, timer, operating-system signals) is read from a [World];
      everything it does to them is recorded, in order, as a list of
      [Action]. *)

From Stdlib Require Import ZArith Ascii String.
From stdpp Require Import base option list gmap strings.

Local Open Scope string_scope.
Local Open Scope list_scope.

(** ** Errors (package [sylr.dev/fix/pkg/errors] and wrapped errors) *)

Module errors.

Inductive error : Type :=
| OptionsNoSymbolGiven
| OptionsNoTypeGiven
| Options
| ConnectionTimeout
| FixLogout
| FixVersionNotImplemented
(** [fmt.Errorf("%w: ...", base, ...)]: [base] wrapped with a message. *)
| Errorf (base : error) (msg : string)
(** An error value produced by a collaborator. *)
| External (msg : string).

End errors.
Export errors.

(** A Go [(value, error)] pair of which exactly one component is set. *)
Inductive result (A : Type) : Type :=
| Ok (a : A)
| Err (e : error).
Arguments Ok {A} a.
Arguments Err {A} e.

(** ** [strings] *)

Module Strings.

Definition upper_ascii (c : ascii) : ascii :=
  let n := N_of_ascii c in
  if ((97 <=? n) && (n <=? 122))%N then ascii_of_N (n - 32) else c.

Fixpoint ToUpper (s : string) : string :=
  match s with
  | EmptyString => EmptyString
  | String c s' => String (upper_ascii c) (ToUpper s')
  end.

End Strings.

(** ** [time] *)

Module time.
(** [time.Duration]: a count of nanoseconds. *)
Definition Second : Z := 1000000000.
End time.

(** ** [github.com/google/uuid] *)

Module uuid.

Definition hex_digit (n : Z) : ascii :=
  match n with
  | 0 => "0" | 1 => "1" | 2 => "2" | 3 => "3" | 4 => "4" | 5 => "5"
  | 6 => "6" | 7 => "7" | 8 => "8" | 9 => "9" | 10 => "a" | 11 => "b"
  | 12 => "c" | 13 => "d" | 14 => "e" | _ => "f"
  end%Z%char.

(** Byte [i] (0 is the first) of a 16-byte identifier held as a 128-bit
    number, most significant byte first. *)
Definition byte_at (u : Z) (i : nat) : Z :=
  Z.land (Z.shiftr u (8 * (15 - Z.of_nat i))) 255.

(** Two lower-case hexadecimal digits per byte, bytes [i], [i+1], ...,
    [i+n-1]. *)
Fixpoint encode_hex (u : Z) (i n : nat) : string :=
  match n with
  | O => EmptyString
  | S n' =>
      String (hex_digit (Z.shiftr (byte_at u i) 4))
        (String (hex_digit (Z.land (byte_at u i) 15))
           (encode_hex u (S i) n'))
  end.

(** [UUID.String]: xxxxxxxx-xxxx-xxxx-xxxx-xxxxxxxxxxxx. *)
Definition String (u : Z) : string :=
  encode_hex u 0 4 +:+ "-" +:+ encode_hex u 4 2 +:+ "-" +:+
  encode_hex u 6 2 +:+ "-" +:+ encode_hex u 8 2 +:+ "-" +:+
  encode_hex u 10 6.

(** [uuid.New] on 128 bits read from the random source: a version 4,
    variant 10 identifier. *)
Definition New (random : Z) : Z :=
  let r := Z.land random (Z.ones 128) in
  let r := Z.lor (Z.land r (Z.lnot (Z.shiftl 240 72))) (Z.shiftl 64 72) in
  Z.lor (Z.land r (Z.lnot (Z.shiftl 192 56))) (Z.shiftl 128 56).

End uuid.

(** ** [github.com/quickfixgo]: tags, enumerations, fields, messages *)

Module tag.
Definition BeginString : Z := 8.
Definition MsgType : Z := 35.
Definition SenderCompID : Z := 49.
Definition SenderSubID : Z := 50.
Definition Symbol : Z := 55.
Definition TargetCompID : Z := 56.
Definition TargetSubID : Z := 57.
Definition NoRelatedSym : Z := 146.
Definition MDReqID : Z := 262.
Definition SubscriptionRequestType : Z := 263.
Definition MarketDepth : Z := 264.
Definition MDUpdateType : Z := 265.
Definition NoMDEntryTypes : Z := 267.
Definition MDEntryType : Z := 269.
End tag.

Module enum.
Definition MsgType_MARKET_DATA_REQUEST : string := "V".
Definition MDUpdateType_FULL_REFRESH : string := "0".
Definition MDUpdateType_INCREMENTAL_REFRESH : string := "1".
End enum.

Module quickfix.

Definition BeginStringFIXT11 : string := "FIXT.1.1".

Inductive FieldValue : Type :=
| FIXString (s : string)
| FIXInt (z : Z).

(** A field as produced by the constructors of package [field]. *)
Definition Field : Type := Z * FieldValue.

(** A repeating group: its counter tag, its template and its instances,
    oldest first. *)
Record RepeatingGroup : Type := mkRepeatingGroup {
  rg_tag : Z;
  rg_template : list Z;
  rg_groups : list (gmap Z FieldValue)
}.

Inductive Entry : Type :=
| Single (v : FieldValue)
| Repeating (g : RepeatingGroup).

Record Message : Type := mkMessage {
  Header : gmap Z Entry;
  Body : gmap Z Entry;
  Trailer : gmap Z Entry
}.

Definition NewMessage : Message :=
  {| Header := ∅; Body := ∅; Trailer := ∅ |}.

Definition NewRepeatingGroup (t : Z) (template : list Z) : RepeatingGroup :=
  {| rg_tag := t; rg_template := template; rg_groups := [] |}.

Definition GroupElement (t : Z) : Z := t.

(** [FieldMap.Set]. *)
Definition Set_ (fm : gmap Z Entry) (f : Field) : gmap Z Entry :=
  <[f.1 := Single f.2]> fm.

(** [FieldMap.SetGroup]. *)
Definition SetGroup (fm : gmap Z Entry) (g : RepeatingGroup) : gmap Z Entry :=
  <[rg_tag g := Repeating g]> fm.

(** [RepeatingGroup.Add]: a new, empty instance at the end. The Go method
    returns a pointer to that instance; [SetLast] writes through it. *)
Definition Add (g : RepeatingGroup) : RepeatingGroup :=
  {| rg_tag := rg_tag g; rg_template := rg_template g;
     rg_groups := rg_groups g ++ [∅] |}.

Definition SetLast (g : RepeatingGroup) (f : Field) : RepeatingGroup :=
  {| rg_tag := rg_tag g; rg_template := rg_template g;
     rg_groups :=
       alter (λ inst : gmap Z FieldValue, <[f.1 := f.2]> inst) (pred (length (rg_groups g)))
         (rg_groups g) |}.

Definition HeaderSet (m : Message) (f : Field) : Message :=
  {| Header := Set_ (Header m) f; Body := Body m; Trailer := Trailer m |}.

Definition BodySet (m : Message) (f : Field) : Message :=
  {| Header := Header m; Body := Set_ (Body m) f; Trailer := Trailer m |}.

Definition BodySetGroup (m : Message) (g : RepeatingGroup) : Message :=
  {| Header := Header m; Body := SetGroup (Body m) g; Trailer := Trailer m |}.

End quickfix.
Export quickfix.

Module field.
Definition NewBeginString (v : string) : Field := (tag.BeginString, FIXString v).
Definition NewMsgType (v : string) : Field := (tag.MsgType, FIXString v).
Definition NewMDReqID (v : string) : Field := (tag.MDReqID, FIXString v).
Definition NewSubscriptionRequestType (v : string) : Field :=
  (tag.SubscriptionRequestType, FIXString v).
Definition NewMarketDepth (v : Z) : Field := (tag.MarketDepth, FIXInt v).
Definition NewMDUpdateType (v : string) : Field := (tag.MDUpdateType, FIXString v).
Definition NewMDEntryType (v : string) : Field := (tag.MDEntryType, FIXString v).
Definition NewSymbol (v : string) : Field := (tag.Symbol, FIXString v).
Definition NewTargetCompID (v : string) : Field := (tag.TargetCompID, FIXString v).
Definition NewTargetSubID (v : string) : Field := (tag.TargetSubID, FIXString v).
Definition NewSenderCompID (v : string) : Field := (tag.SenderCompID, FIXString v).
Definition NewSenderSubID (v : string) : Field := (tag.SenderSubID, FIXString v).
End field.

Module fixt11.
(** [fixt11.NewHeader]: wraps the message header and stamps the transport
    version on it. *)
Definition NewHeader (m : Message) : Message :=
  HeaderSet m (field.NewBeginString "FIXT.1.1").
End fixt11.

(** ** [sylr.dev/fix/config] *)

Module config.

Record Session : Type := mkSession {
  BeginString : string;
  DefaultApplVerID : string;
  SenderCompID : string;
  SenderSubID : string;
  TargetCompID : string;
  TargetSubID : string;
  TransportDictionary : string;
  ApplicationDictionary : string
}.

Record Initiator : Type := mkInitiator {
  SocketTimeout : Z
}.

(** A resolved connection context, seen through the three methods the
    command calls on it. *)
Record Context : Type := mkContext {
  GetSessions : result (list Session);
  GetInitiator : result Initiator;
  ToQuickFixInitiatorSettings : result unit
}.

(** [config.GetOptions]: the global options. *)
Record GlobalOptions : Type := mkGlobalOptions {
  Timeout : Z;
  QuickFixLogging : bool
}.

End config.
Export config.

(** ** [sylr.dev/fix/pkg/utils] *)

Module utils.

(** Modelled from the spec: [utils.QuickFixMessagePartSetString], whose
    source is missing from the verified files. "A field is set only if the
    corresponding session value is non-empty (sparse population - absent
    optional identifiers must not be sent as empty strings)". *)
Definition QuickFixMessagePartSetString
    (part : gmap Z Entry) (value : string) (f : string → Field) : gmap Z Entry :=
  if (String.length value =? 0)%nat then part else Set_ part (f value).

End utils.

(** ** [package marketdatarequest] *)

(** The package-level option variables, bound to the command's flags. *)
Record Options : Type := mkOptions {
  optionTypes : list string;
  optionSymbols : list string;
  optionFullSnap : bool;
  optionSubType : string;
  optionMDReqID : string
}.

(** What [Validate] reads from outside the package. *)
Record ValidateWorld : Type := mkValidateWorld {
  (** [utils.ReconcileBoolFlags(cmd.Flags())]: the helper walks the boolean
      flags registered through [utils.AddBothBoolFlags]; the only option
      variable bound to such a flag is [optionFullSnap]. It yields either an
      error or the reconciled value of that variable. *)
  ReconcileBoolFlags : bool → result bool;
  (** The 128 bits [uuid.New] draws from the random source. *)
  random_bits : Z
}.

(** Outcome of the [select] that waits for the session to connect. *)
Inductive ConnectEvent : Type :=
| TimerFired                 (* [<-time.After(timeout)] *)
| ConnectedReceived          (* [_, ok := <-app.Connected] with [ok] *)
| ConnectedClosed.           (* [_, ok := <-app.Connected] with [!ok] *)

(** Outcome of one [select] of the streaming loop. *)
Inductive StreamEvent : Type :=
| Interrupt (signal : string)    (* [signal := <-interrupt] *)
| FromApp (msg : Message)        (* [_, ok := <-app.FromAppChan] with [ok] *)
| FromAppClosed.                 (* [_, ok := <-app.FromAppChan] with [!ok] *)

(** What [Execute] reads from its collaborators. *)
Record World : Type := mkWorld {
  GetOptions : GlobalOptions;
  GetCurrentContext : result Context;
  GetFIXDictionaries : Session → result (string * string);
  Initiate : result unit;
  Start : option error;
  (** which case of the connection [select] is taken, given the timeout *)
  connect : Z → ConnectEvent;
  Send : Message → option error;
  (** the cases taken by the successive [select]s of the streaming loop *)
  stream : list StreamEvent
}.

(** What [Execute] does to its collaborators. *)
Inductive Action : Type :=
| ActInitiate (quickfixLogging : bool)
| ActStart
| ActAwaitConnect (timeout : Z)
| ActSend (m : Message)
| ActSignalNotify
| ActLogSignal (signal : string)
| ActAppStop
| ActInitStop.

(** How far a run of a statement sequence got. *)
Inductive Outcome (A : Type) : Type :=
| Next (a : A)                    (* fell through, with a value *)
| Returned (err : option error)   (* [return err] *)
| Panicked (msg : string)         (* run-time panic *)
| Blocked.                        (* waiting in a [select] for ever *)
Arguments Next {A} a.
Arguments Returned {A} err.
Arguments Panicked {A} msg.
Arguments Blocked {A}.

Record Exec (A : Type) : Type := mkExec {
  trace : list Action;
  outcome : Outcome A
}.
Arguments mkExec {A} trace outcome.
Arguments trace {A} e.
Arguments outcome {A} e.

#[global] Instance Exec_ret : MRet Exec := λ A a, mkExec [] (Next a).

#[global] Instance Exec_bind : MBind Exec := λ A B k m,
  match outcome m with
  | Next a => mkExec (trace m ++ trace (k a)) (outcome (k a))
  | Returned e => mkExec (trace m) (Returned e)
  | Panicked msg => mkExec (trace m) (Panicked msg)
  | Blocked => mkExec (trace m) Blocked
  end.

Definition act (a : Action) : Exec unit := mkExec [a] (Next ()).
Definition return_ {A} (e : option error) : Exec A := mkExec [] (Returned e).
Definition panic {A} (msg : string) : Exec A := mkExec [] (Panicked msg).
Definition blocked {A} : Exec A := mkExec [] Blocked.

(** [v, err := call(); if err != nil { return err }] *)
Definition try {A} (r : result A) : Exec A :=
  match r with
  | Ok a => mret a
  | Err e => return_ (Some e)
  end.

(** [err := call(); if err != nil { return err }] *)
Definition check (r : option error) : Exec unit :=
  match r with
  | None => mret ()
  | Some e => return_ (Some e)
  end.

(** Package [sylr.dev/fix/pkg/dict]: the two tables the command consults,
    from canonical upper-case token to protocol code. Their contents are not
    among the verified files; the command is modelled for arbitrary ones. *)
Record Dict : Type := mkDict {
  MDEntryTypes : gmap string string;
  SubscriptionRequestTypes : gmap string string
}.

Section marketdatarequest.

Context (dict : Dict).

(** [m[k]] on a Go map with string elements. *)
Definition index (m : gmap string string) (k : string) : string :=
  default "" (m !! k).

(** The loop [for _, t := range optionTypes] of [Validate]. *)
Fixpoint checkTypes (types : list string) : option error :=
  match types with
  | [] => None
  | t :: types' =>
      match MDEntryTypes dict !! Strings.ToUpper t with
      | None => Some (Errorf errors.Options ("unkonwn type `" +:+ t +:+ "`"))
      | Some _ => checkTypes types'
      end
  end.

Definition Validate (w : ValidateWorld) (o : Options) : option error * Options :=
  match ReconcileBoolFlags w (optionFullSnap o) with
  | Err err => (Some err, o)
  | Ok full =>
      let o := mkOptions (optionTypes o) (optionSymbols o) full
                 (optionSubType o) (optionMDReqID o) in
      if (length (optionSymbols o) =? 0)%nat then (Some OptionsNoSymbolGiven, o)
      else if (length (optionTypes o) =? 0)%nat then (Some OptionsNoTypeGiven, o)
      else
        match checkTypes (optionTypes o) with
        | Some err => (Some err, o)
        | None =>
            match SubscriptionRequestTypes dict !! Strings.ToUpper (optionSubType o) with
            | None =>
                (Some (Errorf errors.Options
                         ("unkonwn subscription type `" +:+ optionSubType o +:+ "`")),
                 o)
            | Some _ =>
                if (String.length (optionMDReqID o) =? 0)%nat then
                  let uid := uuid.New (random_bits w) in
                  (None,
                   mkOptions (optionTypes o) (optionSymbols o) (optionFullSnap o)
                     (optionSubType o) (uuid.String uid))
                else (None, o)
            end
        end
  end.

(** The loop [for _, t := range optionTypes] of [buildMessage]. *)
Definition addEntryTypes (entryTypes : RepeatingGroup) (types : list string)
    : RepeatingGroup :=
  fold_left
    (λ g t, SetLast (Add g)
              (field.NewMDEntryType (index (MDEntryTypes dict) (Strings.ToUpper t))))
    types entryTypes.

(** The loop [for _, sym := range optionSymbols] of [buildMessage]. *)
Definition addSymbols (relatedSym : RepeatingGroup) (symbols : list string)
    : RepeatingGroup :=
  fold_left (λ g sym, SetLast (Add g) (field.NewSymbol sym)) symbols relatedSym.

Definition buildMessage (o : Options) (session : Session)
    : option Message * option error :=
  let mdReqID := field.NewMDReqID (optionMDReqID o) in
  let subReqType :=
    field.NewSubscriptionRequestType
      (index (SubscriptionRequestTypes dict) (Strings.ToUpper (optionSubType o))) in
  let marketDepth := field.NewMarketDepth 0 in
  let updateType :=
    if optionFullSnap o then enum.MDUpdateType_FULL_REFRESH
    else enum.MDUpdateType_INCREMENTAL_REFRESH in
  let message := NewMessage in
  let message := fixt11.NewHeader message in
  let switch : result Message :=
    if String.eqb (BeginString session) BeginStringFIXT11 then
      if String.eqb (DefaultApplVerID session) "FIX.5.0SP2" then
        let message := HeaderSet message (field.NewMsgType enum.MsgType_MARKET_DATA_REQUEST) in
        let message := BodySet message mdReqID in
        let message := BodySet message subReqType in
        let message := BodySet message marketDepth in
        let message := BodySet message (field.NewMDUpdateType updateType) in
        let entryTypes :=
          NewRepeatingGroup tag.NoMDEntryTypes [GroupElement tag.MDEntryType] in
        let entryTypes := addEntryTypes entryTypes (optionTypes o) in
        let message := BodySetGroup message entryTypes in
        let relatedSym :=
          NewRepeatingGroup tag.NoRelatedSym [GroupElement tag.Symbol] in
        let relatedSym := addSymbols relatedSym (optionSymbols o) in
        let message := BodySetGroup message relatedSym in
        Ok message
      else Err FixVersionNotImplemented
    else Err FixVersionNotImplemented in
  match switch with
  | Err e => (None, Some e)
  | Ok message =>
      let header := Header message in
      let header :=
        utils.QuickFixMessagePartSetString header (TargetCompID session) field.NewTargetCompID in
      let header :=
        utils.QuickFixMessagePartSetString header (TargetSubID session) field.NewTargetSubID in
      let header :=
        utils.QuickFixMessagePartSetString header (SenderCompID session) field.NewSenderCompID in
      let header :=
        utils.QuickFixMessagePartSetString header (SenderSubID session) field.NewSenderSubID in
      (Some (mkMessage header (Body message) (Trailer message)), None)
  end.

(** [sessions[0]] *)
Definition first_session (sessions : list Session) : Exec Session :=
  match sessions with
  | [] => panic "runtime error: index out of range [0] with length 0"
  | session :: _ => mret session
  end.

(** The timeout choice of [Execute]: cli option > config > default. *)
Definition chooseTimeout (options : GlobalOptions) (ctxInitiator : Initiator) : Z :=
  if negb (Timeout options =? 0)%Z then Timeout options
  else if negb (SocketTimeout ctxInitiator =? 0)%Z then SocketTimeout ctxInitiator
  else (5 * time.Second)%Z.

(** The [select] that waits for the session connection. *)
Definition awaitConnect (w : World) (timeout : Z) : Exec unit :=
  act (ActAwaitConnect timeout);;
  match connect w timeout with
  | TimerFired => return_ (Some ConnectionTimeout)
  | ConnectedClosed => return_ (Some FixLogout)
  | ConnectedReceived => mret ()
  end.

(** The loop labelled [LOOP], run against the cases its successive
    [select]s take; it falls through on [break LOOP]. *)
Fixpoint streamLoop (events : list StreamEvent) : Exec unit :=
  match events with
  | [] => blocked
  | Interrupt signal :: _ =>
      act (ActLogSignal signal);;
      act ActAppStop;;
      act ActInitStop;;
      mret ()
  | FromApp _ :: events' => streamLoop events'
  | FromAppClosed :: _ => mret ()
  end.

Definition Execute (w : World) (o : Options) : Exec unit :=
  let options := GetOptions w in
  context ← try (GetCurrentContext w);
  sessions ← try (GetSessions context);
  ctxInitiator ← try (GetInitiator context);
  session ← first_session sessions;
  _ ← try (GetFIXDictionaries w session);
  settings ← try (ToQuickFixInitiatorSettings context);
  act (ActInitiate (QuickFixLogging options));;
  _ ← try (Initiate w);
  act ActStart;;
  check (Start w);;
  let timeout := chooseTimeout options ctxInitiator in
  awaitConnect w timeout;;
  securitylist ←
    match buildMessage o session with
    | (_, Some err) => return_ (Some err)
    | (Some m, None) => mret m
    | (None, None) => panic "invalid memory address or nil pointer dereference"
    end;
  act (ActSend securitylist);;
  check (Send w securitylist);;
  act ActSignalNotify;;
  streamLoop (stream w);;
  return_ None.

End marketdatarequest.

(** cobra's run of the command: [PersistentPreRunE] ([Validate], then the
    parent command's hook, whose result is [parentPreRun]) and, when that
    returned [nil], [RunE] ([Execute]). *)
Definition PersistentPreRunE (dict : Dict)
    (vw : ValidateWorld) (parentPreRun : option error) (o : Options)
    : option error * Options :=
  match Validate dict vw o with
  | (Some err, o') => (Some err, o')
  | (None, o') => (parentPreRun, o')
  end.

Definition MarketDataRequestCmd (dict : Dict)
    (vw : ValidateWorld) (parentPreRun : option error) (w : World) (o : Options)
    : Exec unit :=
  match PersistentPreRunE dict vw parentPreRun o with
  | (Some err, _) => return_ (Some err)
  | (None, o') => Execute dict w o'
  end.

(** ** Vocabulary of the statements *)

(** The one (transport, application) pair [buildMessage] has a case for. *)
Definition supported (session : Session) : Prop :=
  BeginString session = "FIXT.1.1" ∧ DefaultApplVerID session = "FIX.5.0SP2".

(** The instances of the repeating group stored under [t], if any. *)
Definition group_instances (part : gmap Z Entry) (t : Z)
    : option (list (gmap Z FieldValue)) :=
  match part !! t with
  | Some (Repeating g) => Some (rg_groups g)
  | _ => None
  end.

(** The string stored under [t], if any. *)
Definition string_field (part : gmap Z Entry) (t : Z) : option string :=
  match part !! t with
  | Some (Single (FIXString s)) => Some s
  | _ => None
  end.

(** The group instance [buildMessage] makes of one entry-type token and of
    one symbol. *)
Definition entry_instance (dict : Dict) (t : string)
    : gmap Z FieldValue :=
  {[ tag.MDEntryType := FIXString (index (MDEntryTypes dict) (Strings.ToUpper t)) ]}.

Definition symbol_instance (sym : string) : gmap Z FieldValue :=
  {[ tag.Symbol := FIXString sym ]}.

(** Sparse population of a routing field: present with the session's value
    when that value is non-empty, absent otherwise. *)
Definition sparse (part : gmap Z Entry) (t : Z) (value : string) : Prop :=
  (value = "" → part !! t = None) ∧
  (value ≠ "" → part !! t = Some (Single (FIXString value))).

(** The message built for a supported session, field by field. *)
Definition built (dict : Dict)
    (o : Options) (session : Session) : Message :=
  let body : gmap Z Entry :=
    <[tag.NoRelatedSym :=
        Repeating (mkRepeatingGroup tag.NoRelatedSym [tag.Symbol]
                     (map symbol_instance (optionSymbols o)))]>
    (<[tag.NoMDEntryTypes :=
        Repeating (mkRepeatingGroup tag.NoMDEntryTypes [tag.MDEntryType]
                     (map (entry_instance dict) (optionTypes o)))]>
    (<[tag.MDUpdateType :=
        Single (FIXString (if optionFullSnap o then enum.MDUpdateType_FULL_REFRESH
                           else enum.MDUpdateType_INCREMENTAL_REFRESH))]>
    (<[tag.MarketDepth := Single (FIXInt 0)]>
    (<[tag.SubscriptionRequestType :=
        Single (FIXString (index (SubscriptionRequestTypes dict)
                             (Strings.ToUpper (optionSubType o))))]>
    (<[tag.MDReqID := Single (FIXString (optionMDReqID o))]> ∅))))) in
  let header : gmap Z Entry :=
    <[tag.MsgType := Single (FIXString enum.MsgType_MARKET_DATA_REQUEST)]>
    (<[tag.BeginString := Single (FIXString "FIXT.1.1")]> ∅) in
  let header :=
    utils.QuickFixMessagePartSetString header (TargetCompID session) field.NewTargetCompID in
  let header :=
    utils.QuickFixMessagePartSetString header (TargetSubID session) field.NewTargetSubID in
  let header :=
    utils.QuickFixMessagePartSetString header (SenderCompID session) field.NewSenderCompID in
  let header :=
    utils.QuickFixMessagePartSetString header (SenderSubID session) field.NewSenderSubID in
  mkMessage header body ∅.

(** Every step of [Execute] up to and including [init.Start()] succeeds:
    [session] is the session it works with and [ctxInitiator] the
    initiator settings it reads the socket timeout from. *)
Definition started (w : World) (session : Session) (ctxInitiator : Initiator) : Prop :=
  ∃ context rest dicts,
    GetCurrentContext w = Ok context ∧
    GetSessions context = Ok (session :: rest) ∧
    GetInitiator context = Ok ctxInitiator ∧
    GetFIXDictionaries w session = Ok dicts ∧
    ToQuickFixInitiatorSettings context = Ok () ∧
    Initiate w = Ok () ∧
    Start w = None.

(** What [Execute] has done once [init.Start()] has returned. *)
Definition startup_trace (w : World) : list Action :=
  [ActInitiate (QuickFixLogging (GetOptions w)); ActStart].

(** [Execute] gets as far as the streaming loop: it started, the session
    connected, [buildMessage] produced [m] and [quickfix.Send] accepted it. *)
Definition streaming (dict : Dict)
    (w : World) (o : Options) (session : Session) (ctxInitiator : Initiator)
    (m : Message) : Prop :=
  started w session ctxInitiator ∧
  connect w (chooseTimeout (GetOptions w) ctxInitiator) = ConnectedReceived ∧
  buildMessage dict o session = (Some m, None) ∧
  Send w m = None.

(** What [Execute] has done when it enters the streaming loop. *)
Definition streaming_trace (w : World) (ctxInitiator : Initiator) (m : Message)
    : list Action :=
  startup_trace w ++
  [ActAwaitConnect (chooseTimeout (GetOptions w) ctxInitiator); ActSend m;
   ActSignalNotify].

(** A failure of [Execute] ahead of the call to [quickfix.Send], with the
    error of the failing step: resolution of the configuration, start of
    the initiator, wait for the connection, construction of the message. *)
Inductive fails_before_sending (dict : Dict) (w : World) (o : Options) : error → Prop :=
| fail_context e :
    GetCurrentContext w = Err e →
    fails_before_sending dict w o e
| fail_sessions context e :
    GetCurrentContext w = Ok context →
    GetSessions context = Err e →
    fails_before_sending dict w o e
| fail_initiator context sessions e :
    GetCurrentContext w = Ok context →
    GetSessions context = Ok sessions →
    GetInitiator context = Err e →
    fails_before_sending dict w o e
| fail_dictionaries context session rest ini e :
    GetCurrentContext w = Ok context →
    GetSessions context = Ok (session :: rest) →
    GetInitiator context = Ok ini →
    GetFIXDictionaries w session = Err e →
    fails_before_sending dict w o e
| fail_settings context session rest ini dicts e :
    GetCurrentContext w = Ok context →
    GetSessions context = Ok (session :: rest) →
    GetInitiator context = Ok ini →
    GetFIXDictionaries w session = Ok dicts →
    ToQuickFixInitiatorSettings context = Err e →
    fails_before_sending dict w o e
| fail_initiate context session rest ini dicts e :
    GetCurrentContext w = Ok context →
    GetSessions context = Ok (session :: rest) →
    GetInitiator context = Ok ini →
    GetFIXDictionaries w session = Ok dicts →
    ToQuickFixInitiatorSettings context = Ok () →
    Initiate w = Err e →
    fails_before_sending dict w o e
| fail_start context session rest ini dicts e :
    GetCurrentContext w = Ok context →
    GetSessions context = Ok (session :: rest) →
    GetInitiator context = Ok ini →
    GetFIXDictionaries w session = Ok dicts →
    ToQuickFixInitiatorSettings context = Ok () →
    Initiate w = Ok () →
    Start w = Some e →
    fails_before_sending dict w o e
| fail_timeout session ini :
    started w session ini →
    connect w (chooseTimeout (GetOptions w) ini) = TimerFired →
    fails_before_sending dict w o ConnectionTimeout
| fail_logout session ini :
    started w session ini →
    connect w (chooseTimeout (GetOptions w) ini) = ConnectedClosed →
    fails_before_sending dict w o FixLogout
| fail_build session ini mo e :
    started w session ini →
    connect w (chooseTimeout (GetOptions w) ini) = ConnectedReceived →
    buildMessage dict o session = (mo, Some e) →
    fails_before_sending dict w o e.

(** The world [w] in which the resolved context lists [sessions]. *)
Definition with_sessions (w : World) (sessions : list Session) : World :=
  {| GetOptions := GetOptions w;
     GetCurrentContext :=
       match GetCurrentContext w with
       | Ok c =>
           Ok {| GetSessions := Ok sessions;
                 GetInitiator := GetInitiator c;
                 ToQuickFixInitiatorSettings := ToQuickFixInitiatorSettings c |}
       | Err e => Err e
       end;
     GetFIXDictionaries := GetFIXDictionaries w;
     Initiate := Initiate w;
     Start := Start w;
     connect := connect w;
     Send := Send w;
     stream := stream w |}.

(** The run ends with the two stop calls, adapter first, and returns. *)
Definition stops_then_terminates (e : Exec unit) : Prop :=
  ∃ (before : list Action) (err : option error),
    trace e = (before ++ [ActAppStop; ActInitStop])%list ∧ outcome e = Returned err.


(** The world [w] in which the streaming loop's [select]s take [events]. *)
Definition with_stream (w : World) (events : list StreamEvent) : World :=
  {| GetOptions := GetOptions w;
     GetCurrentContext := GetCurrentContext w;
     GetFIXDictionaries := GetFIXDictionaries w;
     Initiate := Initiate w;
     Start := Start w;
     connect := connect w;
     Send := Send w;
     stream := events |}.

(** The calls of [quickfix.Send]. *)
Definition is_send (a : Action) : bool :=
  match a with
  | ActSend _ => true
  | _ => false
  end.

(** The token's upper-cased form is a key of the table. *)
Definition resolves (table : gmap string string) (token : string) : Prop :=
  is_Some (table !! Strings.ToUpper token).


(** ** Sample data *)

Module sample.

Definition dict : Dict :=
  {| MDEntryTypes := {[ "BID" := "0"; "OFFER" := "1"; "TRADE" := "2" ]};
     SubscriptionRequestTypes :=
       {[ "SNAPSHOT" := "0"; "SNAPSHOT_PLUS_UPDATES" := "1" ]} |}.

(** The default flag values with one symbol. *)
Definition opts : Options :=
  {| optionTypes := ["bid"; "offer"]; optionSymbols := ["EUR/USD"];
     optionFullSnap := true; optionSubType := "snapshot"; optionMDReqID := "" |}.

Definition opts_with_id : Options :=
  {| optionTypes := ["bid"; "offer"]; optionSymbols := ["EUR/USD"];
     optionFullSnap := true; optionSubType := "snapshot"; optionMDReqID := "req-1" |}.

Definition fix50sp2 : Session :=
  {| BeginString := "FIXT.1.1"; DefaultApplVerID := "FIX.5.0SP2";
     SenderCompID := "CLIENT"; SenderSubID := "";
     TargetCompID := "BROKER"; TargetSubID := "";
     TransportDictionary := "FIXT11.xml"; ApplicationDictionary := "FIX50SP2.xml" |}.

Definition fix44 : Session :=
  {| BeginString := "FIX.4.4"; DefaultApplVerID := "";
     SenderCompID := "CLIENT"; SenderSubID := "";
     TargetCompID := "BROKER"; TargetSubID := "";
     TransportDictionary := "FIX44.xml"; ApplicationDictionary := "FIX44.xml" |}.

Definition flags_ok : ValidateWorld :=
  {| ReconcileBoolFlags := λ full, Ok full; random_bits := 2024 |}.

(** Both [--full] and [--no-full] on the command line. *)
Definition flags_conflict : ValidateWorld :=
  {| ReconcileBoolFlags :=
       λ _, Err (External "only one of --full and --no-full may be specified");
     random_bits := 2024 |}.

Definition context (sessions : list Session) : Context :=
  {| GetSessions := Ok sessions;
     GetInitiator := Ok {| SocketTimeout := 0 |};
     ToQuickFixInitiatorSettings := Ok () |}.

(** A counterparty that accepts everything; the connection [select] and
    the streaming loop take the given cases. *)
Definition world (sessions : list Session) (c : ConnectEvent) (events : list StreamEvent)
    : World :=
  {| GetOptions := {| Timeout := 0; QuickFixLogging := false |};
     GetCurrentContext := Ok (context sessions);
     GetFIXDictionaries := λ s, Ok (TransportDictionary s, ApplicationDictionary s);
     Initiate := Ok ();
     Start := None;
     connect := λ _, c;
     Send := λ _, None;
     stream := events |}.

Definition ini : Initiator := {| SocketTimeout := 0 |}.


(** An entry type that is not in the table, and no symbol. *)
Definition opts_unchecked : Options :=
  {| optionTypes := ["bid"; "mid"]; optionSymbols := [];
     optionFullSnap := false; optionSubType := "snapshot"; optionMDReqID := "" |}.

Definition opts_no_type : Options :=
  {| optionTypes := []; optionSymbols := ["EUR/USD"];
     optionFullSnap := true; optionSubType := "snapshot"; optionMDReqID := "" |}.

Definition opts_unknown_type : Options :=
  {| optionTypes := ["bid"; "mid"; "ask"]; optionSymbols := ["EUR/USD"];
     optionFullSnap := true; optionSubType := "snapshot"; optionMDReqID := "" |}.


(** Other random bits than [flags_ok] draws. *)
Definition flags_ok' : ValidateWorld :=
  {| ReconcileBoolFlags := λ full, Ok full; random_bits := 7 |}.

(** A counterparty that connects but refuses the message. *)
Definition world_send_refused : World :=
  {| GetOptions := {| Timeout := 0; QuickFixLogging := false |};
     GetCurrentContext := Ok (context [fix50sp2]);
     GetFIXDictionaries := λ s, Ok (TransportDictionary s, ApplicationDictionary s);
     Initiate := Ok ();
     Start := None;
     connect := λ _, ConnectedReceived;
     Send := λ _, Some (External "session not found");
     stream := [FromAppClosed] |}.

(** No session, and initiator settings that cannot be resolved. *)
Definition world_no_initiator : World :=
  {| GetOptions := {| Timeout := 0; QuickFixLogging := false |};
     GetCurrentContext :=
       Ok {| GetSessions := Ok [];
             GetInitiator := Err (External "no initiator");
             ToQuickFixInitiatorSettings := Ok () |};
     GetFIXDictionaries := λ s, Ok (TransportDictionary s, ApplicationDictionary s);
     Initiate := Ok ();
     Start := None;
     connect := λ _, ConnectedReceived;
     Send := λ _, None;
     stream := [] |}.

End sample.

(** * Properties *)

(** ** Upper-casing *)

Lemma upper_ascii_idemp c : Strings.upper_ascii (Strings.upper_ascii c) = Strings.upper_ascii c.
Proof. by destruct c as [[] [] [] [] [] [] [] []]. Qed.

Lemma ToUpper_idemp s : Strings.ToUpper (Strings.ToUpper s) = Strings.ToUpper s.
Proof. induction s as [|c s IH]; simpl; [done|]. by rewrite upper_ascii_idemp, IH. Qed.

(** ** The identifier text *)

Lemma string_app_length (s t : string) :
  String.length (s +:+ t) = (String.length s + String.length t)%nat.
Proof. induction s as [|c s IH]; simpl; [done|]. by rewrite IH. Qed.

Lemma encode_hex_length u i n : String.length (uuid.encode_hex u i n) = (2 * n)%nat.
Proof. revert i. induction n as [|n IH]; intros i; simpl; [done|]. rewrite IH. lia. Qed.

Lemma uuid_String_length u : String.length (uuid.String u) = 36%nat.
Proof.
  unfold uuid.String. rewrite !string_app_length, !encode_hex_length. reflexivity.
Qed.

Lemma uuid_String_nonempty u : uuid.String u ≠ "".
Proof. intros H. pose proof (uuid_String_length u) as L. rewrite H in L. discriminate. Qed.

(** ** Repeating groups *)

Lemma SetLast_Add g f :
  SetLast (Add g) f =
  mkRepeatingGroup (rg_tag g) (rg_template g) (rg_groups g ++ [{[f.1 := f.2]}]).
Proof.
  unfold SetLast, Add; simpl. f_equal.
  rewrite length_app; simpl. rewrite Nat.add_1_r; simpl.
  rewrite <- (Nat.add_0_r (length (rg_groups g))) at 1.
  rewrite alter_app_r. simpl. by rewrite insert_empty.
Qed.

Section builder.

Context (dict : Dict).

Lemma addEntryTypes_spec types g :
  addEntryTypes dict g types =
  mkRepeatingGroup (rg_tag g) (rg_template g)
    (rg_groups g ++ map (entry_instance dict) types).
Proof.
  revert g. induction types as [|t types IH]; intros g.
  - simpl. rewrite app_nil_r. by destruct g.
  - unfold addEntryTypes in *. simpl. rewrite IH, SetLast_Add. simpl.
    by rewrite <- app_assoc.
Qed.

Lemma addSymbols_spec symbols g :
  addSymbols g symbols =
  mkRepeatingGroup (rg_tag g) (rg_template g)
    (rg_groups g ++ map symbol_instance symbols).
Proof.
  revert g. induction symbols as [|s symbols IH]; intros g.
  - simpl. rewrite app_nil_r. by destruct g.
  - unfold addSymbols in *. simpl. rewrite IH, SetLast_Add. simpl.
    by rewrite <- app_assoc.
Qed.

Lemma QuickFixMessagePartSetString_ne part value f t :
  (f value).1 ≠ t →
  utils.QuickFixMessagePartSetString part value f !! t = part !! t.
Proof.
  intros Hne. unfold utils.QuickFixMessagePartSetString, Set_.
  destruct (String.length value =? 0)%nat; [done|].
  by rewrite lookup_insert_ne.
Qed.

Lemma QuickFixMessagePartSetString_sparse part value f t :
  part !! t = None →
  f value = (t, FIXString value) →
  sparse (utils.QuickFixMessagePartSetString part value f) t value.
Proof.
  intros Hnone Hf. unfold utils.QuickFixMessagePartSetString, Set_.
  rewrite Hf; simpl. split; intros Hv.
  - by rewrite Hv.
  - destruct value; [done|]. simpl. by rewrite lookup_insert_eq.
Qed.

Lemma sparse_QuickFixMessagePartSetString part value f t v :
  (f value).1 ≠ t →
  sparse part t v →
  sparse (utils.QuickFixMessagePartSetString part value f) t v.
Proof.
  intros Hne [H1 H2].
  split; intros Hv; rewrite QuickFixMessagePartSetString_ne by done; auto.
Qed.

Lemma buildMessage_supported o session :
  supported session →
  buildMessage dict o session =
  (Some (built dict o session), None).
Proof.
  intros [Hb Ha]. unfold buildMessage, built.
  rewrite Hb, Ha. simpl.
  by rewrite addEntryTypes_spec, addSymbols_spec.
Qed.

Lemma buildMessage_not_supported o session :
  ¬ supported session →
  buildMessage dict o session =
  (None, Some FixVersionNotImplemented).
Proof.
  intros H. unfold buildMessage, supported in *.
  destruct (String.eqb_spec (BeginString session) BeginStringFIXT11) as [Hb|Hb];
    [|done].
  destruct (String.eqb_spec (DefaultApplVerID session) "FIX.5.0SP2") as [Ha|Ha];
    [|done].
  by destruct H.
Qed.

(** C1. A session whose (BeginString, DefaultApplVerID) pair is not
    (FIXT.1.1, FIX.5.0SP2) makes [buildMessage] return the
    version-not-implemented error and no message at all. *)
Theorem buildMessage_unsupported_version o session :
  ¬ supported session →
  buildMessage dict o session =
  (None, Some FixVersionNotImplemented).
Proof. apply buildMessage_not_supported. Qed.

(** C2. For the pair (FIXT.1.1, FIX.5.0SP2) and any lists of entry-type
    tokens and symbols (non-empty ones in particular), [buildMessage]
    returns a message of type MarketDataRequest whose entry-type group and
    symbol group hold exactly one instance per list element, in the order
    of the list, duplicates included; the update type follows the
    full-refresh flag. In the scenario of one symbol EUR/USD and the types
    bid and offer with full refresh, the symbol group has one instance,
    the entry-type group two, and MDUpdateType is FULL_REFRESH. *)
Theorem buildMessage_groups_in_order o session :
  supported session →
  ∃ m,
    buildMessage dict o session = (Some m, None) ∧
    string_field (Header m) tag.MsgType = Some enum.MsgType_MARKET_DATA_REQUEST ∧
    group_instances (Body m) tag.NoMDEntryTypes =
      Some (map (entry_instance dict) (optionTypes o)) ∧
    group_instances (Body m) tag.NoRelatedSym =
      Some (map symbol_instance (optionSymbols o)) ∧
    string_field (Body m) tag.MDUpdateType =
      Some (if optionFullSnap o then enum.MDUpdateType_FULL_REFRESH
            else enum.MDUpdateType_INCREMENTAL_REFRESH) ∧
    (optionSymbols o = ["EUR/USD"] → optionTypes o = ["bid"; "offer"] →
     optionFullSnap o = true →
     string_field (Body m) tag.MDUpdateType = Some enum.MDUpdateType_FULL_REFRESH ∧
     (length <$> group_instances (Body m) tag.NoRelatedSym) = Some 1%nat ∧
     (length <$> group_instances (Body m) tag.NoMDEntryTypes) = Some 2%nat).
Proof.
  intros Hs. eexists. split; [by apply buildMessage_supported|].
  assert (string_field (Header (built dict o session))
            tag.MsgType = Some enum.MsgType_MARKET_DATA_REQUEST) as Hty.
  { unfold string_field, built; simpl.
    rewrite !QuickFixMessagePartSetString_ne by done.
    by rewrite lookup_insert_eq. }
  split; [done|]. split; [done|]. split; [done|]. split; [done|].
  intros Hsym Hty' Hfull. unfold group_instances, string_field, built; simpl.
  rewrite Hsym, Hty', Hfull. done.
Qed.

(** C8. For a supported session the header of the built message carries
    each of SenderCompID, SenderSubID, TargetCompID and TargetSubID with
    the session's value when that value is non-empty, and does not carry
    the field at all when the value is empty. *)
Theorem buildMessage_sparse_routing o session :
  supported session →
  ∃ m,
    buildMessage dict o session = (Some m, None) ∧
    sparse (Header m) tag.SenderCompID (SenderCompID session) ∧
    sparse (Header m) tag.SenderSubID (SenderSubID session) ∧
    sparse (Header m) tag.TargetCompID (TargetCompID session) ∧
    sparse (Header m) tag.TargetSubID (TargetSubID session).
Proof.
  intros Hs. eexists. split; [by apply buildMessage_supported|].
  unfold built; simpl.
  repeat split;
    repeat (apply sparse_QuickFixMessagePartSetString; [done|]);
    by apply QuickFixMessagePartSetString_sparse;
      [rewrite ?QuickFixMessagePartSetString_ne by done|].
Qed.

End builder.

(** ** The orchestration *)

Lemma streamLoop_interrupt msgs signal rest :
  streamLoop (map FromApp msgs ++ Interrupt signal :: rest) =
  mkExec [ActLogSignal signal; ActAppStop; ActInitStop] (Next ()).
Proof. induction msgs as [|m msgs IH]; [done|]. simpl. exact IH. Qed.

Lemma streamLoop_closed msgs rest :
  streamLoop (map FromApp msgs ++ FromAppClosed :: rest) = mkExec [] (Next ()).
Proof. induction msgs as [|m msgs IH]; [done|]. simpl. exact IH. Qed.

Lemma streamLoop_waiting msgs : streamLoop (map FromApp msgs) = blocked.
Proof. induction msgs as [|m msgs IH]; [done|]. simpl. exact IH. Qed.

(** Closes [a ∉ l] for a list [l] of explicit actions with other heads. *)
Ltac absent :=
  let Hin := fresh "Hin" in
  intros Hin; cbn in Hin;
  repeat (apply elem_of_cons in Hin as [Hin|Hin]; [discriminate Hin|]);
  by apply elem_of_nil in Hin.

Section orchestration.

Context (dict : Dict).

Ltac run_started H :=
  destruct H as (context & rest & dicts & Hc & Hs & Hi & Hd & Hq & Hin & Hst);
  unfold Execute;
  rewrite Hc; cbn; rewrite Hs; cbn; rewrite Hi; cbn; rewrite Hd; cbn;
  rewrite Hq; cbn; rewrite Hin; cbn; rewrite Hst; cbn.

Lemma Execute_timer_fired w o session ini :
  started w session ini →
  connect w (chooseTimeout (GetOptions w) ini) = TimerFired →
  Execute dict w o =
  mkExec (startup_trace w ++ [ActAwaitConnect (chooseTimeout (GetOptions w) ini)])
    (Returned (Some ConnectionTimeout)).
Proof. intros H Hw. run_started H. unfold awaitConnect. rewrite Hw. done. Qed.

Lemma Execute_connected_closed w o session ini :
  started w session ini →
  connect w (chooseTimeout (GetOptions w) ini) = ConnectedClosed →
  Execute dict w o =
  mkExec (startup_trace w ++ [ActAwaitConnect (chooseTimeout (GetOptions w) ini)])
    (Returned (Some FixLogout)).
Proof. intros H Hw. run_started H. unfold awaitConnect. rewrite Hw. done. Qed.

Lemma Execute_build_failed w o session ini mo e :
  started w session ini →
  connect w (chooseTimeout (GetOptions w) ini) = ConnectedReceived →
  buildMessage dict o session = (mo, Some e) →
  Execute dict w o =
  mkExec (startup_trace w ++ [ActAwaitConnect (chooseTimeout (GetOptions w) ini)])
    (Returned (Some e)).
Proof.
  intros H Hw Hb. run_started H. unfold awaitConnect. rewrite Hw. cbn.
  rewrite Hb. by destruct mo.
Qed.

Lemma Execute_send_failed w o session ini m e :
  started w session ini →
  connect w (chooseTimeout (GetOptions w) ini) = ConnectedReceived →
  buildMessage dict o session = (Some m, None) →
  Send w m = Some e →
  Execute dict w o =
  mkExec
    (startup_trace w ++
     [ActAwaitConnect (chooseTimeout (GetOptions w) ini); ActSend m])
    (Returned (Some e)).
Proof.
  intros H Hw Hb Hsend. run_started H. unfold awaitConnect. rewrite Hw. cbn.
  rewrite Hb. cbn. rewrite Hsend. done.
Qed.

Lemma Execute_streaming w o session ini m :
  streaming dict w o session ini m →
  Execute dict w o =
  mkExec (streaming_trace w ini m ++ trace (streamLoop (stream w)))
    (match outcome (streamLoop (stream w)) with
     | Next _ => Returned None
     | Returned e => Returned e
     | Panicked msg => Panicked msg
     | Blocked => Blocked
     end).
Proof.
  intros (H & Hw & Hb & Hsend). run_started H. unfold awaitConnect. rewrite Hw. cbn.
  rewrite Hb. cbn. rewrite Hsend. cbn.
  unfold streaming_trace, startup_trace.
  destruct (streamLoop (stream w)) as [tr []]; cbn; by rewrite ?app_nil_r.
Qed.

Lemma streamLoop_outcome events :
  outcome (streamLoop events) = Next () ∨ outcome (streamLoop events) = Blocked.
Proof.
  induction events as [|[signal|msg|] events IH]; simpl; auto.
Qed.

Lemma buildMessage_total o session :
  (∃ m, buildMessage dict o session = (Some m, None)) ∨
  buildMessage dict o session = (None, Some FixVersionNotImplemented).
Proof.
  unfold buildMessage.
  destruct (String.eqb _ _); [|by right].
  destruct (String.eqb _ _); [|by right].
  left. by eexists.
Qed.

Lemma started_with_timeout w o session ini :
  started w session ini →
  ∃ rest,
    trace (Execute dict w o) =
    startup_trace w ++ ActAwaitConnect (chooseTimeout (GetOptions w) ini) :: rest.
Proof.
  intros H. run_started H. unfold awaitConnect.
  destruct (connect w _); cbn; by eexists.
Qed.

(** C3. Once the initiator is started, if the timer of the connection wait
    fires first, [Execute] returns the connection-timeout error having
    attempted no send; if instead the Connected channel is found closed,
    [Execute] returns the logout error (also without any send). *)
Theorem Execute_connection_wait w o session ini :
  started w session ini →
  (connect w (chooseTimeout (GetOptions w) ini) = TimerFired →
   outcome (Execute dict w o) = Returned (Some ConnectionTimeout) ∧
   ∀ m, ActSend m ∉ trace (Execute dict w o)) ∧
  (connect w (chooseTimeout (GetOptions w) ini) = ConnectedClosed →
   outcome (Execute dict w o) = Returned (Some FixLogout) ∧
   ∀ m, ActSend m ∉ trace (Execute dict w o)).
Proof.
  intros H. split; intros Hw.
  - rewrite (Execute_timer_fired _ _ _ _ H Hw). split; [done|]. intros m. absent.
  - rewrite (Execute_connected_closed _ _ _ _ H Hw). split; [done|]. intros m. absent.
Qed.

(** C5. The timeout of the connection wait is the global option when that
    is non-zero, else the initiator's socket timeout when that is non-zero,
    else five seconds; with zero at both levels it is five seconds. This is
    the timeout [Execute] waits with once the initiator is started. *)
Theorem Execute_timeout_resolution w o session ini :
  (Timeout (GetOptions w) ≠ 0%Z →
   chooseTimeout (GetOptions w) ini = Timeout (GetOptions w)) ∧
  (Timeout (GetOptions w) = 0%Z → SocketTimeout ini ≠ 0%Z →
   chooseTimeout (GetOptions w) ini = SocketTimeout ini) ∧
  (Timeout (GetOptions w) = 0%Z → SocketTimeout ini = 0%Z →
   chooseTimeout (GetOptions w) ini = 5000000000%Z) ∧
  (started w session ini →
   ∃ rest,
     trace (Execute dict w o) =
     startup_trace w ++ ActAwaitConnect (chooseTimeout (GetOptions w) ini) :: rest).
Proof.
  unfold chooseTimeout. repeat split.
  - intros H. by apply Z.eqb_neq in H as ->.
  - intros -> H. by apply Z.eqb_neq in H as ->.
  - by intros -> ->.
  - apply started_with_timeout.
Qed.

Lemma Execute_interrupted w o session ini m msgs signal rest :
  streaming dict w o session ini m →
  stream w = map FromApp msgs ++ Interrupt signal :: rest →
  Execute dict w o =
  mkExec (streaming_trace w ini m ++ [ActLogSignal signal; ActAppStop; ActInitStop])
    (Returned None).
Proof.
  intros H Hev. rewrite (Execute_streaming _ _ _ _ _ H), Hev, streamLoop_interrupt.
  done.
Qed.

Lemma Execute_channel_closed w o session ini m msgs rest :
  streaming dict w o session ini m →
  stream w = map FromApp msgs ++ FromAppClosed :: rest →
  Execute dict w o = mkExec (streaming_trace w ini m) (Returned None).
Proof.
  intros H Hev. rewrite (Execute_streaming _ _ _ _ _ H), Hev, streamLoop_closed.
  cbn. by rewrite ?app_nil_r.
Qed.

(** C4, as amended. When the streaming loop ends on a termination signal,
    [Execute] stops the application adapter, then the initiator, and
    returns; when it ends because FromAppChan is found closed, [Execute]
    returns without calling either stop. *)
Theorem Execute_loop_exit w o session ini m :
  streaming dict w o session ini m →
  (∀ msgs signal rest,
     stream w = map FromApp msgs ++ Interrupt signal :: rest →
     Execute dict w o =
     mkExec (streaming_trace w ini m ++ [ActLogSignal signal; ActAppStop; ActInitStop])
       (Returned None)) ∧
  (∀ msgs rest,
     stream w = map FromApp msgs ++ FromAppClosed :: rest →
     Execute dict w o = mkExec (streaming_trace w ini m) (Returned None) ∧
     (ActAppStop ∉ trace (Execute dict w o)) ∧
     (ActInitStop ∉ trace (Execute dict w o))).
Proof.
  intros H. split.
  - intros msgs signal rest Hev. by eapply Execute_interrupted.
  - intros msgs rest Hev.
    rewrite (Execute_channel_closed _ _ _ _ _ _ _ H Hev).
    split; [done|]. split; absent.
Qed.

Lemma fails_before_sending_spec w o e :
  fails_before_sending dict w o e →
  ∃ tr, Execute dict w o = mkExec tr (Returned (Some e)) ∧ ∀ m, ActSend m ∉ tr.
Proof.
  intros H. destruct H as
    [e Hc|context e Hc Hs|context sessions e Hc Hs Hi
    |context session rest ini e Hc Hs Hi Hd
    |context session rest ini dicts e Hc Hs Hi Hd Hq
    |context session rest ini dicts e Hc Hs Hi Hd Hq Hin
    |context session rest ini dicts e Hc Hs Hi Hd Hq Hin Hst
    |session ini H Hw|session ini H Hw|session ini mo e H Hw Hb].
  - unfold Execute. rewrite Hc. eexists; split; [done|]. intros m; absent.
  - unfold Execute. rewrite Hc; cbn. rewrite Hs. eexists; split; [done|].
    intros m; absent.
  - unfold Execute. rewrite Hc; cbn. rewrite Hs; cbn. rewrite Hi.
    eexists; split; [done|]. intros m; absent.
  - unfold Execute. rewrite Hc; cbn. rewrite Hs; cbn. rewrite Hi; cbn.
    rewrite Hd. eexists; split; [done|]. intros m; absent.
  - unfold Execute. rewrite Hc; cbn. rewrite Hs; cbn. rewrite Hi; cbn.
    rewrite Hd; cbn. rewrite Hq. eexists; split; [done|]. intros m; absent.
  - unfold Execute. rewrite Hc; cbn. rewrite Hs; cbn. rewrite Hi; cbn.
    rewrite Hd; cbn. rewrite Hq; cbn. rewrite Hin.
    eexists; split; [done|]. intros m; absent.
  - unfold Execute. rewrite Hc; cbn. rewrite Hs; cbn. rewrite Hi; cbn.
    rewrite Hd; cbn. rewrite Hq; cbn. rewrite Hin; cbn. rewrite Hst.
    eexists; split; [done|]. intros m; absent.
  - rewrite (Execute_timer_fired _ _ _ _ H Hw).
    eexists; split; [done|]. intros m; absent.
  - rewrite (Execute_connected_closed _ _ _ _ H Hw).
    eexists; split; [done|]. intros m; absent.
  - rewrite (Execute_build_failed _ _ _ _ _ _ H Hw Hb).
    eexists; split; [done|]. intros m; absent.
Qed.

(** C9. A termination signal received while streaming makes [Execute] stop
    the adapter and the engine and return nil; a failure ahead of the send
    (configuration, initiator start, connection wait, message building)
    makes [Execute] return the error of the failing step without
    [quickfix.Send] ever being called. *)
Theorem Execute_signal_and_early_failure w o :
  (∀ session ini m msgs signal rest,
     streaming dict w o session ini m →
     stream w = map FromApp msgs ++ Interrupt signal :: rest →
     outcome (Execute dict w o) = Returned None ∧
     stops_then_terminates (Execute dict w o)) ∧
  (∀ e,
     fails_before_sending dict w o e →
     outcome (Execute dict w o) = Returned (Some e) ∧
     ∀ m, ActSend m ∉ trace (Execute dict w o)).
Proof.
  split.
  - intros session ini m msgs signal rest H Hev.
    rewrite (Execute_interrupted _ _ _ _ _ _ _ _ H Hev).
    split; [done|].
    exists (streaming_trace w ini m ++ [ActLogSignal signal]), None.
    cbn. by rewrite <- ?app_assoc.
  - intros e H. destruct (fails_before_sending_spec _ _ _ H) as (tr & -> & Hno).
    done.
Qed.

(** C10. [Execute] takes element 0 of the session list without a length
    check: with an empty list, and the initiator settings resolved, it
    panics on the index; with at least one session it never panics, and it
    behaves as if the list held its first session only. *)
Theorem Execute_first_session w o :
  (∀ context ini,
     GetCurrentContext w = Ok context →
     GetSessions context = Ok [] →
     GetInitiator context = Ok ini →
     ∃ msg, Execute dict w o = mkExec [] (Panicked msg)) ∧
  (∀ context session rest,
     GetCurrentContext w = Ok context →
     GetSessions context = Ok (session :: rest) →
     ∀ msg, outcome (Execute dict w o) ≠ Panicked msg) ∧
  (∀ session rest,
     Execute dict (with_sessions w (session :: rest)) o =
     Execute dict (with_sessions w [session]) o).
Proof.
  split; [|split].
  - intros context ini Hc Hs Hi. unfold Execute.
    rewrite Hc; cbn. rewrite Hs; cbn. rewrite Hi; cbn. by eexists.
  - intros context session rest Hc Hs msg. unfold Execute.
    rewrite Hc; cbn. rewrite Hs; cbn.
    destruct (GetInitiator context) as [ini|]; [cbn|done].
    destruct (GetFIXDictionaries w session); [cbn|done].
    destruct (ToQuickFixInitiatorSettings context); [cbn|done].
    destruct (Initiate w); [cbn|done].
    destruct (Start w); [done|cbn].
    unfold awaitConnect. destruct (connect w _); cbn; [done| |done].
    destruct (buildMessage_total o session) as [[m ->]| ->]; [cbn|done].
    destruct (Send w m); [done|cbn].
    destruct (streamLoop_outcome (stream w)) as [Ho|Ho];
      destruct (streamLoop (stream w)) as [tr out]; cbn in *; by subst.
  - intros session rest. unfold Execute, with_sessions; cbn.
    by destruct (GetCurrentContext w).
Qed.

End orchestration.

(** ** Validation and the request identifier *)

Section validation.

Context (dict : Dict).




Lemma Validate_request_id vw o o' :
  Validate dict vw o = (None, o') →
  optionMDReqID o' ≠ "" ∧
  (optionMDReqID o ≠ "" → optionMDReqID o' = optionMDReqID o) ∧
  (optionMDReqID o = "" →
   optionMDReqID o' = uuid.String (uuid.New (random_bits vw))).
Proof.
  unfold Validate.
  destruct (ReconcileBoolFlags vw (optionFullSnap o)) as [full|e]; simpl; [|done].
  destruct (length (optionSymbols o) =? 0)%nat; [done|].
  destruct (length (optionTypes o) =? 0)%nat; [done|].
  destruct (checkTypes dict (optionTypes o)); [done|].
  destruct (SubscriptionRequestTypes dict !! _); [|done].
  destruct (optionMDReqID o) as [|c id] eqn:Hid; simpl; intros [= <-]; simpl.
  - split; [apply uuid_String_nonempty|]. by split.
  - by repeat split.
Qed.

Lemma streamLoop_no_send events m : ActSend m ∉ trace (streamLoop events).
Proof.
  induction events as [|[signal|msg|] events IH]; simpl; [absent| |done|absent].
  absent.
Qed.





End validation.

(** ** The properties at the sample data *)

Lemma sample_started s sessions c events :
  started (sample.world (s :: sessions) c events) s sample.ini.
Proof.
  by exists (sample.context (s :: sessions)), sessions,
    (TransportDictionary s, ApplicationDictionary s).
Qed.

Lemma sample_supported : supported sample.fix50sp2.
Proof. by split. Qed.

Lemma sample_not_supported : ¬ supported sample.fix44.
Proof. intros [H _]. discriminate H. Qed.

Lemma sample_streaming o events :
  streaming sample.dict (sample.world [sample.fix50sp2] ConnectedReceived events) o
    sample.fix50sp2 sample.ini (built sample.dict o sample.fix50sp2).
Proof.
  split; [apply sample_started|]. split; [done|].
  split; [apply buildMessage_supported, sample_supported|done].
Qed.


Lemma buildMessage_unsupported_version_witness :
  ¬ supported sample.fix44 ∧
  buildMessage sample.dict sample.opts sample.fix44 =
  (None, Some FixVersionNotImplemented).
Proof.
  split; [apply sample_not_supported|].
  apply (buildMessage_unsupported_version sample.dict sample.opts sample.fix44).
  apply sample_not_supported.
Defined.

Lemma buildMessage_groups_in_order_witness :
  ∃ m,
    buildMessage sample.dict sample.opts sample.fix50sp2 = (Some m, None) ∧
    string_field (Header m) tag.MsgType = Some "V" ∧
    group_instances (Body m) tag.NoMDEntryTypes =
      Some [ {[ 269%Z := FIXString "0" ]}; {[ 269%Z := FIXString "1" ]} ] ∧
    group_instances (Body m) tag.NoRelatedSym =
      Some [ {[ 55%Z := FIXString "EUR/USD" ]} ] ∧
    string_field (Body m) tag.MDUpdateType = Some "0".
Proof.
  destruct (buildMessage_groups_in_order sample.dict sample.opts sample.fix50sp2
              sample_supported) as (m & Hb & Hty & Het & Hsym & Hup & _).
  exists m. split; [exact Hb|]. split; [exact Hty|].
  split; [exact Het|]. split; [exact Hsym|exact Hup].
Defined.

Lemma buildMessage_sparse_routing_witness :
  ∃ m,
    buildMessage sample.dict sample.opts sample.fix50sp2 = (Some m, None) ∧
    Header m !! tag.SenderCompID = Some (Single (FIXString "CLIENT")) ∧
    Header m !! tag.SenderSubID = None ∧
    Header m !! tag.TargetCompID = Some (Single (FIXString "BROKER")) ∧
    Header m !! tag.TargetSubID = None.
Proof.
  destruct (buildMessage_sparse_routing sample.dict sample.opts sample.fix50sp2
              sample_supported) as (m & Hb & Hsc & Hss & Htc & Hts).
  exists m. split; [exact Hb|].
  split; [apply Hsc; discriminate|].
  split; [apply Hss; reflexivity|].
  split; [apply Htc; discriminate|apply Hts; reflexivity].
Defined.

Lemma Execute_connection_wait_witness :
  (outcome (Execute sample.dict (sample.world [sample.fix50sp2] TimerFired [])
              sample.opts_with_id) = Returned (Some ConnectionTimeout) ∧
   ∀ m, ActSend m ∉ trace (Execute sample.dict
                             (sample.world [sample.fix50sp2] TimerFired [])
                             sample.opts_with_id)) ∧
  (outcome (Execute sample.dict (sample.world [sample.fix50sp2] ConnectedClosed [])
              sample.opts_with_id) = Returned (Some FixLogout) ∧
   ∀ m, ActSend m ∉ trace (Execute sample.dict
                             (sample.world [sample.fix50sp2] ConnectedClosed [])
                             sample.opts_with_id)).
Proof.
  split.
  - apply (Execute_connection_wait sample.dict
             (sample.world [sample.fix50sp2] TimerFired []) sample.opts_with_id
             sample.fix50sp2 sample.ini (sample_started _ _ _ _)).
    reflexivity.
  - apply (Execute_connection_wait sample.dict
             (sample.world [sample.fix50sp2] ConnectedClosed []) sample.opts_with_id
             sample.fix50sp2 sample.ini (sample_started _ _ _ _)).
    reflexivity.
Defined.

Lemma Execute_timeout_resolution_witness :
  chooseTimeout
    (GetOptions (sample.world [sample.fix50sp2] ConnectedReceived [FromAppClosed]))
    sample.ini = 5000000000%Z ∧
  ∃ rest,
    trace (Execute sample.dict
             (sample.world [sample.fix50sp2] ConnectedReceived [FromAppClosed])
             sample.opts_with_id) =
    [ActInitiate false; ActStart; ActAwaitConnect 5000000000] ++ rest.
Proof.
  destruct (Execute_timeout_resolution sample.dict
              (sample.world [sample.fix50sp2] ConnectedReceived [FromAppClosed])
              sample.opts_with_id sample.fix50sp2 sample.ini)
    as (_ & _ & Hdefault & Hwait).
  split; [apply Hdefault; reflexivity|].
  apply Hwait, sample_started.
Defined.

Lemma Execute_loop_exit_witness :
  Execute sample.dict
    (sample.world [sample.fix50sp2] ConnectedReceived
       [FromApp NewMessage; Interrupt "interrupt"])
    sample.opts_with_id =
  mkExec
    [ActInitiate false; ActStart; ActAwaitConnect 5000000000;
     ActSend (built sample.dict sample.opts_with_id sample.fix50sp2);
     ActSignalNotify; ActLogSignal "interrupt"; ActAppStop; ActInitStop]
    (Returned None) ∧
  Execute sample.dict
    (sample.world [sample.fix50sp2] ConnectedReceived
       [FromApp NewMessage; FromAppClosed])
    sample.opts_with_id =
  mkExec
    [ActInitiate false; ActStart; ActAwaitConnect 5000000000;
     ActSend (built sample.dict sample.opts_with_id sample.fix50sp2);
     ActSignalNotify]
    (Returned None).
Proof.
  split.
  - apply (proj1 (Execute_loop_exit sample.dict _ _ _ _ _
                    (sample_streaming sample.opts_with_id
                       [FromApp NewMessage; Interrupt "interrupt"]))
             [NewMessage] "interrupt" []).
    reflexivity.
  - apply (proj2 (Execute_loop_exit sample.dict _ _ _ _ _
                    (sample_streaming sample.opts_with_id
                       [FromApp NewMessage; FromAppClosed]))
             [NewMessage] []).
    reflexivity.
Defined.

(** C4, as stated, fails: FromAppChan found closed ends the loop and the
    run, yet no stop call is made. *)
Lemma Execute_channel_closed_no_stop :
  stream (sample.world [sample.fix50sp2] ConnectedReceived [FromAppClosed]) =
    [FromAppClosed] ∧
  outcome (Execute sample.dict
             (sample.world [sample.fix50sp2] ConnectedReceived [FromAppClosed])
             sample.opts_with_id) = Returned None ∧
  ¬ stops_then_terminates
      (Execute sample.dict
         (sample.world [sample.fix50sp2] ConnectedReceived [FromAppClosed])
         sample.opts_with_id).
Proof.
  pose proof (Execute_channel_closed sample.dict _ _ _ _ _ [] []
                (sample_streaming sample.opts_with_id [FromAppClosed]) eq_refl)
    as Hrun.
  split; [done|]. rewrite Hrun. split; [done|].
  intros (before & err & Htr & _).
  assert (ActAppStop ∈ before ++ [ActAppStop; ActInitStop]) as Hin.
  { apply elem_of_app. right. apply elem_of_cons. by left. }
  rewrite <- Htr in Hin. revert Hin. absent.
Qed.




Lemma Execute_signal_and_early_failure_witness :
  (outcome (Execute sample.dict
              (sample.world [sample.fix50sp2] ConnectedReceived [Interrupt "terminated"])
              sample.opts_with_id) = Returned None ∧
   stops_then_terminates
     (Execute sample.dict
        (sample.world [sample.fix50sp2] ConnectedReceived [Interrupt "terminated"])
        sample.opts_with_id)) ∧
  (outcome (Execute sample.dict (sample.world [sample.fix44] ConnectedReceived [])
              sample.opts_with_id) = Returned (Some FixVersionNotImplemented) ∧
   ∀ m, ActSend m ∉ trace (Execute sample.dict
                             (sample.world [sample.fix44] ConnectedReceived [])
                             sample.opts_with_id)).
Proof.
  split.
  - apply (proj1 (Execute_signal_and_early_failure sample.dict _ _)
             sample.fix50sp2 sample.ini _ [] "terminated" []
             (sample_streaming sample.opts_with_id [Interrupt "terminated"])).
    reflexivity.
  - apply (proj2 (Execute_signal_and_early_failure sample.dict _ _)).
    apply (fail_build _ _ _ sample.fix44 sample.ini None);
      [apply sample_started|reflexivity|reflexivity].
Defined.

Lemma Execute_first_session_witness :
  (∃ msg, Execute sample.dict (sample.world [] ConnectedReceived [FromAppClosed])
            sample.opts_with_id = mkExec [] (Panicked msg)) ∧
  (∀ msg, outcome (Execute sample.dict
                     (sample.world [sample.fix50sp2; sample.fix44] ConnectedReceived
                        [FromAppClosed])
                     sample.opts_with_id) ≠ Panicked msg).
Proof.
  split.
  - apply (proj1 (Execute_first_session sample.dict
                    (sample.world [] ConnectedReceived [FromAppClosed])
                    sample.opts_with_id)
             (sample.context []) sample.ini); reflexivity.
  - apply (proj1 (proj2 (Execute_first_session sample.dict
                    (sample.world [sample.fix50sp2; sample.fix44] ConnectedReceived
                       [FromAppClosed])
                    sample.opts_with_id))
             (sample.context [sample.fix50sp2; sample.fix44]) sample.fix50sp2
             [sample.fix44]); reflexivity.
Defined.


(** * Further properties *)

(** ** Validation *)

Section validation_more.

Context (dict : Dict).

Lemma checkTypes_all_known types :
  Forall (resolves (MDEntryTypes dict)) types → checkTypes dict types = None.
Proof.
  induction 1 as [|t types [code Ht] _ IH]; simpl; [done|]. by rewrite Ht.
Qed.


Lemma checkTypes_None_known types :
  checkTypes dict types = None → Forall (resolves (MDEntryTypes dict)) types.
Proof.
  induction types as [|t types IH]; simpl; [by constructor|].
  destruct (MDEntryTypes dict !! Strings.ToUpper t) as [code|] eqn:Ht; [|done].
  intros H. constructor; [by exists code|auto].
Qed.

(** What a successful [Validate] has checked and what it returns. *)
Lemma Validate_ok_inv vw o o' :
  Validate dict vw o = (None, o') →
  ∃ full,
    ReconcileBoolFlags vw (optionFullSnap o) = Ok full ∧
    optionSymbols o ≠ [] ∧
    optionTypes o ≠ [] ∧
    Forall (resolves (MDEntryTypes dict)) (optionTypes o) ∧
    resolves (SubscriptionRequestTypes dict) (optionSubType o) ∧
    o' = mkOptions (optionTypes o) (optionSymbols o) full (optionSubType o)
           (if (String.length (optionMDReqID o) =? 0)%nat
            then uuid.String (uuid.New (random_bits vw)) else optionMDReqID o).
Proof.
  unfold Validate, resolves.
  destruct (ReconcileBoolFlags vw (optionFullSnap o)) as [full|e]; simpl; [|done].
  destruct (optionSymbols o) as [|sym syms]; simpl; [done|].
  destruct (optionTypes o) as [|t types] eqn:Hty; [done|].
  cbn [length Nat.eqb].
  destruct (checkTypes dict (t :: types)) eqn:Hck; [done|].
  destruct (SubscriptionRequestTypes dict !! _) as [code|] eqn:Hsub; [|done].
  intros Hv. exists full. split; [done|]. split; [done|]. split; [done|].
  split; [by apply checkTypes_None_known|]. split; [by exists code|].
  destruct (String.length (optionMDReqID o) =? 0)%nat; by injection Hv as <-.
Qed.

(** X1. [Validate] reports the first failing check, in the order of the
    source: a failed flag reconciliation is returned as it is and leaves the
    options untouched; otherwise an empty symbol list gives the no-symbol
    error whatever the other options are; otherwise an empty entry-type list
    gives the no-type error. *)
Theorem Validate_error_precedence vw o :
  (∀ e, ReconcileBoolFlags vw (optionFullSnap o) = Err e →
        Validate dict vw o = (Some e, o)) ∧
  (∀ full, ReconcileBoolFlags vw (optionFullSnap o) = Ok full →
           optionSymbols o = [] →
           (Validate dict vw o).1 = Some OptionsNoSymbolGiven) ∧
  (∀ full, ReconcileBoolFlags vw (optionFullSnap o) = Ok full →
           optionSymbols o ≠ [] → optionTypes o = [] →
           (Validate dict vw o).1 = Some OptionsNoTypeGiven).
Proof.
  unfold Validate. repeat split.
  - by intros e ->.
  - by intros full -> ->.
  - intros full -> Hsym ->. simpl. by destruct (optionSymbols o).
Qed.


(** X3. [Validate] never alters the entry types, the symbols or the
    subscription type; when it fails it leaves the request identifier as it
    found it; and once the flags are reconciled the full-refresh option
    holds the reconciled value, whether the later checks pass or not. *)
Theorem Validate_preserves_options vw o :
  optionTypes (Validate dict vw o).2 = optionTypes o ∧
  optionSymbols (Validate dict vw o).2 = optionSymbols o ∧
  optionSubType (Validate dict vw o).2 = optionSubType o ∧
  (is_Some (Validate dict vw o).1 →
   optionMDReqID (Validate dict vw o).2 = optionMDReqID o) ∧
  (∀ full, ReconcileBoolFlags vw (optionFullSnap o) = Ok full →
           optionFullSnap (Validate dict vw o).2 = full).
Proof.
  assert (¬ is_Some (@None error)) as Hnone by (by intros [? ?]).
  unfold Validate.
  destruct (ReconcileBoolFlags vw (optionFullSnap o)) as [full|e]; simpl;
    [|by repeat split].
  destruct (length (optionSymbols o) =? 0)%nat; simpl;
    [repeat split; try done; by intros ? [= <-]|].
  destruct (length (optionTypes o) =? 0)%nat; simpl;
    [repeat split; try done; by intros ? [= <-]|].
  destruct (checkTypes dict (optionTypes o)); simpl;
    [repeat split; try done; by intros ? [= <-]|].
  destruct (SubscriptionRequestTypes dict !! _); simpl;
    [|repeat split; try done; by intros ? [= <-]].
  destruct (String.length (optionMDReqID o) =? 0)%nat; simpl;
    repeat split; try done; try (by intros ? [= <-]); by intros ?%Hnone.
Qed.

(** X4. Validating again the options a successful [Validate] returned
    changes nothing, provided the flags reconcile to the value they hold:
    the identifier generated the first time is kept, whatever the random
    source yields the second time. *)
Theorem Validate_again vw vw' o o' :
  Validate dict vw o = (None, o') →
  ReconcileBoolFlags vw' (optionFullSnap o') = Ok (optionFullSnap o') →
  Validate dict vw' o' = (None, o').
Proof.
  intros Hv Hr.
  destruct (Validate_request_id dict _ _ _ Hv) as (Hid & _).
  destruct (Validate_ok_inv _ _ _ Hv) as (full & _ & Hsym & Hty & Hk & [code Hsub] & Ho').
  assert (optionTypes o' = optionTypes o) as Ety by (by rewrite Ho').
  assert (optionSymbols o' = optionSymbols o) as Esym by (by rewrite Ho').
  assert (optionSubType o' = optionSubType o) as Esub by (by rewrite Ho').
  unfold Validate. rewrite Hr. simpl. rewrite Esym, Ety, Esub.
  destruct (optionSymbols o) as [|sym syms]; [done|].
  destruct (optionTypes o) as [|t types] eqn:Eo; [done|].
  cbn [length Nat.eqb]. rewrite (checkTypes_all_known _ Hk), Hsub.
  destruct (optionMDReqID o') as [|c id] eqn:Eid; [done|]. simpl.
  f_equal. destruct o'; simpl in *. by subst.
Qed.

End validation_more.

(** ** The builder without and with validation *)


Section builder_more.

Context (dict : Dict).



Lemma QuickFixMessagePartSetString_dom part value f :
  dom (utils.QuickFixMessagePartSetString part value f) ⊆ dom part ∪ {[ (f value).1 ]}.
Proof.
  unfold utils.QuickFixMessagePartSetString, Set_.
  destruct (String.length value =? 0)%nat; [apply union_subseteq_l|].
  rewrite dom_insert_L. by rewrite (comm_L (∪)).
Qed.



(** X7. The message built for a supported session has exactly six body
    entries (MDReqID, SubscriptionRequestType, MarketDepth, MDUpdateType and
    the two groups), with MarketDepth 0; its trailer is empty; and its
    header holds nothing but BeginString, MsgType and the four routing
    fields. *)
Theorem buildMessage_fields o session :
  supported session →
  ∃ m,
    buildMessage dict o session = (Some m, None) ∧
    dom (Body m) =
      {[ tag.MDReqID; tag.SubscriptionRequestType; tag.MarketDepth;
         tag.MDUpdateType; tag.NoMDEntryTypes; tag.NoRelatedSym ]} ∧
    Body m !! tag.MarketDepth = Some (Single (FIXInt 0)) ∧
    Trailer m = ∅ ∧
    dom (Header m) ⊆
      {[ tag.BeginString; tag.MsgType; tag.SenderCompID; tag.SenderSubID;
         tag.TargetCompID; tag.TargetSubID ]}.
Proof.
  intros Hs. eexists. split; [by apply buildMessage_supported|].
  unfold built; simpl. split; [|split; [done|split; [done|]]].
  - rewrite !dom_insert_L, dom_empty_L. set_solver.
  - repeat (etrans; [apply QuickFixMessagePartSetString_dom|];
            apply union_least; [|set_solver]).
    rewrite !dom_insert_L, dom_empty_L, (right_id_L ∅ (∪)).
    apply union_least; apply singleton_subseteq_l; set_solver.
Qed.

End builder_more.

(** ** The orchestration, path by path *)

Lemma streamLoop_skip msgs events :
  streamLoop (map FromApp msgs ++ events) = streamLoop events.
Proof. induction msgs as [|m msgs IH]; [done|]. simpl. exact IH. Qed.

Lemma streamLoop_split events :
  (∃ msgs, events = map FromApp msgs) ∨
  (∃ msgs rest, events = map FromApp msgs ++ FromAppClosed :: rest) ∨
  (∃ msgs signal rest, events = map FromApp msgs ++ Interrupt signal :: rest).
Proof.
  induction events as [|[signal|msg|] events IH].
  - left. by exists [].
  - right; right. by exists [], signal, events.
  - destruct IH as [[msgs ->]|[(msgs & rest & ->)|(msgs & signal & rest & ->)]].
    + left. by exists (msg :: msgs).
    + right; left. by exists (msg :: msgs), rest.
    + right; right. by exists (msg :: msgs), signal, rest.
  - right; left. by exists [], events.
Qed.

Lemma FromApp_prefix_not_all msgs msgs' ev rest :
  (∀ msg, ev ≠ FromApp msg) →
  map FromApp msgs ++ ev :: rest ≠ map FromApp msgs'.
Proof.
  intros Hev. revert msgs'.
  induction msgs as [|m msgs IH]; intros [|m' msgs']; simpl; try done.
  - intros [= H1 _]. by destruct (Hev m').
  - intros [= _ H2]. by eapply IH.
Qed.

(** Closes the goal that an explicit trace holds neither a send nor a
    stop. *)
Ltac quiet := split; [intros ?; absent|split; absent].

Lemma filter_no_send (tr : list Action) :
  (∀ m, ActSend m ∉ tr) → filter (λ a, is_send a = true) tr = [].
Proof.
  induction tr as [|a tr IH]; intros Habs; [done|].
  rewrite filter_cons. destruct a; simpl;
    try (apply IH; intros m' Hm; apply (Habs m'); by right).
  destruct (Habs m). by left.
Qed.

Section orchestration_more.

Context (dict : Dict).

(** Every run of [Execute] either makes no send at all, or gets as far as
    the send with a started, connected session and a built message. *)
Lemma Execute_shape w o :
  ((∀ m, ActSend m ∉ trace (Execute dict w o)) ∧
   (ActAppStop ∉ trace (Execute dict w o)) ∧
   (ActInitStop ∉ trace (Execute dict w o))) ∨
  (∃ session ini m,
     started w session ini ∧
     connect w (chooseTimeout (GetOptions w) ini) = ConnectedReceived ∧
     buildMessage dict o session = (Some m, None)).
Proof.
  unfold Execute.
  destruct (GetCurrentContext w) as [context|] eqn:Hc; cbn; [|left; quiet].
  destruct (GetSessions context) as [sessions|] eqn:Hs; cbn; [|left; quiet].
  destruct (GetInitiator context) as [ini|] eqn:Hi; cbn; [|left; quiet].
  destruct sessions as [|session rest]; cbn; [left; quiet|].
  destruct (GetFIXDictionaries w session) as [dicts|] eqn:Hd; cbn; [|left; quiet].
  destruct (ToQuickFixInitiatorSettings context) as [[]|] eqn:Hq; cbn;
    [|left; quiet].
  destruct (Initiate w) as [[]|] eqn:Hin; cbn; [|left; quiet].
  destruct (Start w) eqn:Hst; cbn; [left; quiet|].
  unfold awaitConnect.
  destruct (connect w _) eqn:Hw; cbn; [left; quiet| |left; quiet].
  destruct (buildMessage dict o session) as [[m'|] [e|]] eqn:Hb; cbn;
    [left; quiet| |left; quiet|left; quiet].
  right. exists session, ini, m'. split; [|done].
  by exists context, rest, dicts.
Qed.

(** The whole run once the message is built, by the answer of
    [quickfix.Send]. *)
Lemma Execute_sent w o session ini m :
  started w session ini →
  connect w (chooseTimeout (GetOptions w) ini) = ConnectedReceived →
  buildMessage dict o session = (Some m, None) →
  ∃ tail,
    trace (Execute dict w o) =
    startup_trace w ++
    ActAwaitConnect (chooseTimeout (GetOptions w) ini) :: ActSend m :: tail ∧
    (∀ m', ActSend m' ∉ tail) ∧
    ((∃ e, Send w m = Some e ∧ tail = [] ∧
           outcome (Execute dict w o) = Returned (Some e)) ∨
     (Send w m = None ∧ tail = ActSignalNotify :: trace (streamLoop (stream w)))).
Proof.
  intros H Hw Hb. destruct (Send w m) as [e|] eqn:Hsend.
  - rewrite (Execute_send_failed _ _ _ _ _ _ _ H Hw Hb Hsend).
    exists []. split; [done|]. split; [intros m'; absent|]. left. by exists e.
  - rewrite (Execute_streaming dict w o session ini m); [|done].
    eexists. split; [done|]. split; [|by right].
    intros m' [Hin|Hin]%elem_of_cons; [discriminate Hin|].
    by apply streamLoop_no_send in Hin.
Qed.

(** X8. [Execute] calls [quickfix.Send] only once the initiator is started
    and the Connected event has been received, and only on the message
    [buildMessage] returned for the first session. *)
Theorem Execute_send_requires_connection w o m :
  ActSend m ∈ trace (Execute dict w o) →
  ∃ session ini,
    started w session ini ∧
    connect w (chooseTimeout (GetOptions w) ini) = ConnectedReceived ∧
    buildMessage dict o session = (Some m, None).
Proof.
  intros Hin.
  destruct (Execute_shape w o) as [[Hno _]|(session & ini & m' & H & Hw & Hb)].
  - by destruct (Hno m).
  - exists session, ini. split; [done|]. split; [done|].
    destruct (Execute_sent _ _ _ _ _ H Hw Hb) as (tail & Htr & Hno & _).
    rewrite Htr in Hin. unfold startup_trace in Hin.
    repeat (apply elem_of_cons in Hin as [Hin|Hin]; [discriminate Hin|]).
    apply elem_of_cons in Hin as [[= ->]|Hin]; [done|]. by destruct (Hno m).
Qed.

(** X9. No run of [Execute] calls [quickfix.Send] more than once: a message
    is never sent again, whatever the engine answers. *)
Theorem Execute_sends_at_most_once w o :
  (length (filter (λ a, is_send a = true) (trace (Execute dict w o))) ≤ 1)%nat.
Proof.
  destruct (Execute_shape w o) as [[Hno _]|(session & ini & m' & H & Hw & Hb)].
  - rewrite filter_no_send by done. simpl. lia.
  - destruct (Execute_sent _ _ _ _ _ H Hw Hb) as (tail & -> & Hno & _).
    unfold startup_trace. simpl. rewrite ?filter_cons. simpl.
    rewrite filter_no_send by done. simpl. lia.
Qed.

(** X10. When [quickfix.Send] refuses the message, [Execute] returns that
    error at once: the send is its last action, the signal handler is not
    installed and neither the adapter nor the initiator is stopped. *)
Theorem Execute_send_refused w o session ini m e :
  started w session ini →
  connect w (chooseTimeout (GetOptions w) ini) = ConnectedReceived →
  buildMessage dict o session = (Some m, None) →
  Send w m = Some e →
  Execute dict w o =
  mkExec
    [ActInitiate (QuickFixLogging (GetOptions w)); ActStart;
     ActAwaitConnect (chooseTimeout (GetOptions w) ini); ActSend m]
    (Returned (Some e)).
Proof. intros H Hw Hb Hsend. by rewrite (Execute_send_failed _ _ _ _ _ _ _ H Hw Hb Hsend). Qed.

(** X11. [Execute] stops the adapter or the initiator in one situation
    only: the message was sent and accepted and a termination signal is
    received in the streaming loop. On every other exit (timeout, logout
    before connection, builder error, refused send, closed FromAppChan) a
    started initiator is left running. *)
Theorem Execute_stops_only_on_signal w o :
  ActAppStop ∈ trace (Execute dict w o) ∨ ActInitStop ∈ trace (Execute dict w o) →
  ∃ session ini m msgs signal rest,
    streaming dict w o session ini m ∧
    stream w = map FromApp msgs ++ Interrupt signal :: rest.
Proof.
  intros Hstop.
  destruct (Execute_shape w o) as [(_ & Ha & Hi)|(session & ini & m & H & Hw & Hb)];
    [by destruct Hstop|].
  destruct (Send w m) as [e|] eqn:Hsend.
  { rewrite (Execute_send_failed _ _ _ _ _ _ _ H Hw Hb Hsend) in Hstop.
    exfalso. destruct Hstop as [Hin|Hin]; revert Hin; absent. }
  assert (streaming dict w o session ini m) as Hstr by done.
  destruct (streamLoop_split (stream w))
    as [[msgs Hev]|[(msgs & rest & Hev)|(msgs & signal & rest & Hev)]].
  - exfalso. rewrite (Execute_streaming _ _ _ _ _ _ Hstr), Hev, streamLoop_waiting in Hstop.
    destruct Hstop as [Hin|Hin]; revert Hin; absent.
  - exfalso. rewrite (Execute_channel_closed _ _ _ _ _ _ _ _ Hstr Hev) in Hstop.
    destruct Hstop as [Hin|Hin]; revert Hin; absent.
  - by exists session, ini, m, msgs, signal, rest.
Qed.

(** X12. The application messages received while streaming are dropped by
    [Execute]: a run in which any number of them arrive first is the run
    without them. *)
Theorem Execute_drops_application_messages w o msgs events :
  Execute dict (with_stream w (map FromApp msgs ++ events)) o =
  Execute dict (with_stream w events) o.
Proof. unfold Execute, with_stream; simpl. by rewrite streamLoop_skip. Qed.

(** X13. Once streaming, [Execute] returns, and then returns nil, exactly
    when some [select] of the loop takes a signal or finds FromAppChan
    closed; as long as application messages are all that arrives it stays
    in the loop. *)
Theorem Execute_streaming_exit w o session ini m :
  streaming dict w o session ini m →
  (outcome (Execute dict w o) = Returned None ↔
   ∃ msgs ev rest,
     stream w = map FromApp msgs ++ ev :: rest ∧ ∀ msg, ev ≠ FromApp msg) ∧
  (outcome (Execute dict w o) = Blocked ↔ ∃ msgs, stream w = map FromApp msgs) ∧
  (∀ err, outcome (Execute dict w o) ≠ Returned (Some err)).
Proof.
  intros Hstr. rewrite (Execute_streaming _ _ _ _ _ _ Hstr). cbn.
  destruct (streamLoop_split (stream w))
    as [[msgs Hev]|[(msgs & rest & Hev)|(msgs & signal & rest & Hev)]];
    rewrite Hev.
  - rewrite streamLoop_waiting. cbn. split; [|split; [|done]].
    + split; [done|]. intros (msgs' & ev & rest & Heq & Hne).
      symmetry in Heq. by apply FromApp_prefix_not_all in Heq.
    + split; [|done]. intros _. by exists msgs.
  - rewrite streamLoop_closed. cbn. split; [|split; [|done]].
    + split; [|done]. intros _. by exists msgs, FromAppClosed, rest.
    + split; [done|]. intros [msgs' Heq].
      by apply FromApp_prefix_not_all in Heq.
  - rewrite streamLoop_interrupt. cbn. split; [|split; [|done]].
    + split; [|done]. intros _. by exists msgs, (Interrupt signal), rest.
    + split; [done|]. intros [msgs' Heq].
      by apply FromApp_prefix_not_all in Heq.
Qed.

(** X14. The timeout [Execute] waits with is never zero, and a negative
    global option is not replaced by a default: it is the timeout. *)
Theorem Execute_timeout_nonzero w o session ini :
  started w session ini →
  ∃ t rest,
    trace (Execute dict w o) = startup_trace w ++ ActAwaitConnect t :: rest ∧
    t ≠ 0%Z ∧
    ((Timeout (GetOptions w) < 0)%Z → t = Timeout (GetOptions w)).
Proof.
  intros H. destruct (started_with_timeout dict w o session ini H) as [rest Htr].
  exists (chooseTimeout (GetOptions w) ini), rest. split; [done|].
  unfold chooseTimeout.
  destruct (Z.eqb_spec (Timeout (GetOptions w)) 0) as [->|Hne]; simpl.
  - split; [|lia].
    by destruct (Z.eqb_spec (SocketTimeout ini) 0) as [->|Hne'].
  - done.
Qed.

(** X15. The protocol version of the session is looked at only after the
    connection: for a session whose version pair is not supported,
    [Execute] still starts the initiator and waits; it reports the version
    error once the Connected event is received, and the connection timeout
    when the timer fires first. *)
Theorem Execute_version_checked_after_connect w o session ini :
  started w session ini →
  ¬ supported session →
  (connect w (chooseTimeout (GetOptions w) ini) = ConnectedReceived →
   Execute dict w o =
   mkExec
     [ActInitiate (QuickFixLogging (GetOptions w)); ActStart;
      ActAwaitConnect (chooseTimeout (GetOptions w) ini)]
     (Returned (Some FixVersionNotImplemented))) ∧
  (connect w (chooseTimeout (GetOptions w) ini) = TimerFired →
   outcome (Execute dict w o) = Returned (Some ConnectionTimeout)).
Proof.
  intros H Hns. split; intros Hw.
  - by rewrite (Execute_build_failed _ _ _ _ _ _ _ H Hw
                  (buildMessage_not_supported dict o session Hns)).
  - by rewrite (Execute_timer_fired _ _ _ _ _ H Hw).
Qed.

(** X16. The initiator settings are resolved before the first session is
    taken: when [GetInitiator] fails, [Execute] returns its error without
    having done anything, also for an empty session list (no index panic). *)
Theorem Execute_initiator_error_first w o context sessions e :
  GetCurrentContext w = Ok context →
  GetSessions context = Ok sessions →
  GetInitiator context = Err e →
  Execute dict w o = mkExec [] (Returned (Some e)).
Proof.
  intros Hc Hs Hi. unfold Execute. rewrite Hc; cbn. rewrite Hs; cbn. by rewrite Hi.
Qed.

(** X17. The command does nothing to the FIX engine unless [Validate]
    succeeded and the parent command's pre-run hook returned nil; when the
    hook fails, its error is the command's result. *)
Theorem MarketDataRequestCmd_gate vw parentPreRun w o :
  (trace (MarketDataRequestCmd dict vw parentPreRun w o) ≠ [] →
   (Validate dict vw o).1 = None ∧ parentPreRun = None) ∧
  (∀ e, (Validate dict vw o).1 = None → parentPreRun = Some e →
        MarketDataRequestCmd dict vw parentPreRun w o = mkExec [] (Returned (Some e))).
Proof.
  unfold MarketDataRequestCmd, PersistentPreRunE.
  destruct (Validate dict vw o) as [[err|] o']; simpl.
  - split; [done|]. by intros e [=].
  - destruct parentPreRun as [e'|]; simpl; [|by split].
    split; [done|]. by intros e _ [= ->].
Qed.

End orchestration_more.

(** ** The further properties at the sample data *)

Lemma Validate_error_precedence_witness :
  Validate sample.dict sample.flags_conflict sample.opts_unchecked =
    (Some (External "only one of --full and --no-full may be specified"),
     sample.opts_unchecked) ∧
  (Validate sample.dict sample.flags_ok sample.opts_unchecked).1 =
    Some OptionsNoSymbolGiven ∧
  (Validate sample.dict sample.flags_ok sample.opts_no_type).1 =
    Some OptionsNoTypeGiven.
Proof.
  split; [|split].
  - apply (proj1 (Validate_error_precedence sample.dict sample.flags_conflict
                    sample.opts_unchecked)).
    reflexivity.
  - apply (proj1 (proj2 (Validate_error_precedence sample.dict sample.flags_ok
                           sample.opts_unchecked)) false); reflexivity.
  - apply (proj2 (proj2 (Validate_error_precedence sample.dict sample.flags_ok
                           sample.opts_no_type)) true);
      [reflexivity|discriminate|reflexivity].
Defined.



Lemma Validate_preserves_options_witness :
  optionMDReqID (Validate sample.dict sample.flags_ok sample.opts_unknown_type).2 = "" ∧
  optionFullSnap (Validate sample.dict sample.flags_ok sample.opts_unknown_type).2 = true.
Proof.
  destruct (Validate_preserves_options sample.dict sample.flags_ok
              sample.opts_unknown_type) as (_ & _ & _ & Hid & Hfull).
  split; [apply Hid; by eexists|apply Hfull; reflexivity].
Defined.

Lemma Validate_again_witness :
  Validate sample.dict sample.flags_ok'
    (Validate sample.dict sample.flags_ok sample.opts).2 =
  (None, (Validate sample.dict sample.flags_ok sample.opts).2).
Proof.
  apply (Validate_again sample.dict sample.flags_ok sample.flags_ok' sample.opts);
    reflexivity.
Defined.



Lemma buildMessage_fields_witness :
  ∃ m,
    buildMessage sample.dict sample.opts sample.fix50sp2 = (Some m, None) ∧
    Body m !! tag.MarketDepth = Some (Single (FIXInt 0)) ∧
    Trailer m = ∅.
Proof.
  destruct (buildMessage_fields sample.dict sample.opts sample.fix50sp2
              sample_supported) as (m & Hb & _ & Hd & Ht & _).
  exists m. split; [exact Hb|]. split; [exact Hd|exact Ht].
Defined.

Lemma sample_send_in_trace :
  ActSend (built sample.dict sample.opts_with_id sample.fix50sp2) ∈
  trace (Execute sample.dict
           (sample.world [sample.fix50sp2] ConnectedReceived [FromAppClosed])
           sample.opts_with_id).
Proof.
  rewrite (Execute_channel_closed sample.dict _ _ _ _ _ [] []
             (sample_streaming sample.opts_with_id [FromAppClosed]) eq_refl).
  cbn. do 3 apply list_elem_of_further. apply list_elem_of_here.
Qed.

Lemma Execute_send_requires_connection_witness :
  ∃ session ini,
    started (sample.world [sample.fix50sp2] ConnectedReceived [FromAppClosed])
      session ini ∧
    connect (sample.world [sample.fix50sp2] ConnectedReceived [FromAppClosed])
      (chooseTimeout
         (GetOptions (sample.world [sample.fix50sp2] ConnectedReceived [FromAppClosed]))
         ini) = ConnectedReceived ∧
    buildMessage sample.dict sample.opts_with_id session =
    (Some (built sample.dict sample.opts_with_id sample.fix50sp2), None).
Proof.
  apply (Execute_send_requires_connection sample.dict
           (sample.world [sample.fix50sp2] ConnectedReceived [FromAppClosed])
           sample.opts_with_id).
  apply sample_send_in_trace.
Defined.

Lemma sample_started_refused :
  started sample.world_send_refused sample.fix50sp2 sample.ini.
Proof.
  by exists (sample.context [sample.fix50sp2]), [],
    (TransportDictionary sample.fix50sp2, ApplicationDictionary sample.fix50sp2).
Qed.

Lemma Execute_send_refused_witness :
  Execute sample.dict sample.world_send_refused sample.opts_with_id =
  mkExec
    [ActInitiate false; ActStart; ActAwaitConnect 5000000000;
     ActSend (built sample.dict sample.opts_with_id sample.fix50sp2)]
    (Returned (Some (External "session not found"))).
Proof.
  apply (Execute_send_refused sample.dict sample.world_send_refused
           sample.opts_with_id sample.fix50sp2 sample.ini
           (built sample.dict sample.opts_with_id sample.fix50sp2)
           (External "session not found") sample_started_refused);
    [reflexivity|apply buildMessage_supported, sample_supported|reflexivity].
Defined.

Lemma sample_stop_in_trace :
  ActAppStop ∈
  trace (Execute sample.dict
           (sample.world [sample.fix50sp2] ConnectedReceived [Interrupt "interrupt"])
           sample.opts_with_id).
Proof.
  rewrite (Execute_interrupted sample.dict _ _ _ _ _ [] "interrupt" []
             (sample_streaming sample.opts_with_id [Interrupt "interrupt"]) eq_refl).
  cbn. do 6 apply list_elem_of_further. apply list_elem_of_here.
Qed.

Lemma Execute_stops_only_on_signal_witness :
  ∃ session ini m msgs signal rest,
    streaming sample.dict
      (sample.world [sample.fix50sp2] ConnectedReceived [Interrupt "interrupt"])
      sample.opts_with_id session ini m ∧
    [Interrupt "interrupt"] = map FromApp msgs ++ Interrupt signal :: rest.
Proof.
  apply (Execute_stops_only_on_signal sample.dict
           (sample.world [sample.fix50sp2] ConnectedReceived [Interrupt "interrupt"])
           sample.opts_with_id).
  left. apply sample_stop_in_trace.
Defined.

Lemma Execute_streaming_exit_witness :
  outcome (Execute sample.dict
             (sample.world [sample.fix50sp2] ConnectedReceived
                [FromApp NewMessage; FromApp NewMessage])
             sample.opts_with_id) = Blocked ∧
  outcome (Execute sample.dict
             (sample.world [sample.fix50sp2] ConnectedReceived
                [FromApp NewMessage; FromAppClosed; FromApp NewMessage])
             sample.opts_with_id) = Returned None.
Proof.
  split.
  - apply (proj1 (proj2 (Execute_streaming_exit sample.dict _ _ _ _ _
                           (sample_streaming sample.opts_with_id
                              [FromApp NewMessage; FromApp NewMessage])))).
    by exists [NewMessage; NewMessage].
  - apply (proj1 (Execute_streaming_exit sample.dict _ _ _ _ _
                    (sample_streaming sample.opts_with_id
                       [FromApp NewMessage; FromAppClosed; FromApp NewMessage]))).
    exists [NewMessage], FromAppClosed, [FromApp NewMessage]. by split.
Defined.

Lemma Execute_timeout_nonzero_witness :
  ∃ t rest,
    trace (Execute sample.dict (sample.world [sample.fix50sp2] TimerFired [])
             sample.opts_with_id) =
    [ActInitiate false; ActStart] ++ ActAwaitConnect t :: rest ∧
    t ≠ 0%Z.
Proof.
  destruct (Execute_timeout_nonzero sample.dict
              (sample.world [sample.fix50sp2] TimerFired []) sample.opts_with_id
              sample.fix50sp2 sample.ini (sample_started _ _ _ _))
    as (t & rest & Htr & Hne & _).
  exists t, rest. split; [exact Htr|exact Hne].
Defined.

Lemma Execute_version_checked_after_connect_witness :
  Execute sample.dict (sample.world [sample.fix44] ConnectedReceived [])
    sample.opts_with_id =
  mkExec [ActInitiate false; ActStart; ActAwaitConnect 5000000000]
    (Returned (Some FixVersionNotImplemented)) ∧
  outcome (Execute sample.dict (sample.world [sample.fix44] TimerFired [])
             sample.opts_with_id) = Returned (Some ConnectionTimeout).
Proof.
  split.
  - apply (proj1 (Execute_version_checked_after_connect sample.dict
                    (sample.world [sample.fix44] ConnectedReceived [])
                    sample.opts_with_id sample.fix44 sample.ini
                    (sample_started _ _ _ _) sample_not_supported)).
    reflexivity.
  - apply (proj2 (Execute_version_checked_after_connect sample.dict
                    (sample.world [sample.fix44] TimerFired [])
                    sample.opts_with_id sample.fix44 sample.ini
                    (sample_started _ _ _ _) sample_not_supported)).
    reflexivity.
Defined.

Lemma Execute_initiator_error_first_witness :
  Execute sample.dict sample.world_no_initiator sample.opts_with_id =
  mkExec [] (Returned (Some (External "no initiator"))).
Proof.
  apply (Execute_initiator_error_first sample.dict sample.world_no_initiator
           sample.opts_with_id
           {| GetSessions := Ok [];
              GetInitiator := Err (External "no initiator");
              ToQuickFixInitiatorSettings := Ok () |} []);
    reflexivity.
Defined.

Lemma MarketDataRequestCmd_gate_witness :
  MarketDataRequestCmd sample.dict sample.flags_ok
    (Some (External "no configuration"))
    (sample.world [sample.fix50sp2] ConnectedReceived [FromAppClosed])
    sample.opts =
  mkExec [] (Returned (Some (External "no configuration"))).
Proof.
  apply (proj2 (MarketDataRequestCmd_gate sample.dict sample.flags_ok
                  (Some (External "no configuration"))
                  (sample.world [sample.fix50sp2] ConnectedReceived [FromAppClosed])
                  sample.opts));
    reflexivity.
Defined.
